(** * PyPkg TUI: a shallow embedding of [packagemanager.py]

    The development follows the Python source class by class:
    [Package], [PackageDatabase], [Repository], [PackageAction],
    [PackageListItem] and the methods of [PackageManagerTUI] that carry
    state (catalog loading, cursor movement, marking, applying a batch,
    searching).  Inside the commands a repaint ([self.draw()]) is kept as
    an event of the trace; what [draw_package_list] writes on the screen,
    and when it raises, is modelled on its own.

    Conventions.
    - Python [int] is [Z]; list positions are [nat] once a bounds test has
      passed.
    - Python [str] is [string], holding the UTF-8 encoding of the text:
      comparison is byte by byte (which is the order of the code points),
      [len], slices and [ljust] count code points.  [str.lower] is
      modelled on the ASCII range only (bytes above 127 are left alone), so
      what is proved about case folding is stated for ASCII text
      ([ascii_only]).
    - [PackageDatabase.packages] is a [gmap string Package];
      [Repository.package_cache] is an insertion-ordered dictionary, kept
      as an association list because [load_packages] iterates over it.
    - The objects held in [self.packages] are mutated through references
      ([to_install], [to_remove]); a reference is modelled by the position
      of the object in [self.packages].
    - Methods run in a state-and-exception monad: a raised exception keeps
      the mutations made so far, as in Python. *)

From Stdlib Require Import ZArith String Ascii List Sorted Permutation Lia.
From Stdlib Require Import OrderedTypeEx.
From stdpp Require Import base tactics option list gmap strings pretty.

Open Scope Z_scope.

(** ** Strings *)

(** [ord(c)] *)
Definition ord (c : ascii) : Z := Z.of_N (N_of_ascii c).

(** One character of [str.lower()], ASCII range: [A]..[Z] go to [a]..[z]
    and every other byte stays.  On text that is all ASCII this is what
    [str.lower()] does; on other text Python folds more letters. *)
Definition lower_ascii (c : ascii) : ascii :=
  let n := N_of_ascii c in
  if ((65 <=? n) && (n <=? 90))%N then ascii_of_N (n + 32) else c.

(** [s.lower()] on ASCII text. *)
Fixpoint lower (s : string) : string :=
  match s with
  | EmptyString => EmptyString
  | String c s' => String (lower_ascii c) (lower s')
  end.

(** Text made of ASCII characters only: no byte above 127. *)
Fixpoint ascii_only (s : string) : bool :=
  match s with
  | EmptyString => true
  | String c s' => (N_of_ascii c <? 128)%N && ascii_only s'
  end.

(** [needle in hay] on strings: [needle] occurs as a contiguous block. *)
Fixpoint contains (needle hay : string) : bool :=
  String.prefix needle hay ||
  match hay with
  | EmptyString => false
  | String _ hay' => contains needle hay'
  end.

(** ** [Package] *)

Record Package := mkPackage {
  name : string;
  version : string;
  description : string;
  dependencies : list string;
  files : list string;
  install_path : string
}.

(** One element of [index.json] after the [.get] defaults are applied. *)
Record PkgInfo := mkInfo {
  info_name : string;
  info_version : string;
  info_description : string;
  info_dependencies : list string
}.

(** ** [PackageAction] *)

Inductive PackageAction := NONE | INSTALL | REMOVE | PURGE.

#[global] Instance PackageAction_eq_dec : EqDecision PackageAction.
Proof. solve_decision. Defined.

(** ** [PackageListItem] *)

Record PackageListItem := mkItem {
  package : Package;
  installed : bool;
  action : PackageAction
}.

(** [PackageListItem(pkg, installed)]: the action defaults to [NONE]. *)
Definition new_item (pkg : Package) (inst : bool) : PackageListItem :=
  mkItem pkg inst NONE.

Definition get_status_char (it : PackageListItem) : ascii :=
  match action it with
  | INSTALL => "i"
  | REMOVE => "d"
  | PURGE => "p"
  | NONE => if installed it then "i" else " "
  end%char.

(** ** Insertion-ordered dictionaries ([Repository.package_cache]) *)

Module Dict.

Definition t := list (string * Package).

(** [d[k] = v]: overwrite in place, or append a new key at the end. *)
Fixpoint set (k : string) (v : Package) (d : t) : t :=
  match d with
  | [] => [(k, v)]
  | (k', v') :: d' =>
      if String.eqb k' k then (k, v) :: d' else (k', v') :: set k v d'
  end.

(** [d.get(k)] *)
Fixpoint get (k : string) (d : t) : option Package :=
  match d with
  | [] => None
  | (k', v') :: d' => if String.eqb k' k then Some v' else get k d'
  end.

Definition keys (d : t) : list string := d.*1.

(** Every value is filed under its own name, and no key occurs twice. *)
Definition wf (d : t) : Prop :=
  NoDup (keys d) ∧ Forall (λ kv, name kv.2 = kv.1) d.

End Dict.

(** ** What happened outside the process

    [event] lists the calls that leave the object: repaints, reads from the
    terminal, the network, the file system and the ledger file. *)

Inductive event :=
| EvDraw (status : string)          (* self.draw() *)
| EvRefresh                         (* self.stdscr.refresh() *)
| EvGetch (key : Z)                 (* self.stdscr.getch() *)
| EvGetstr (line : string)          (* self.stdscr.getstr(...) *)
| EvFetchIndex                      (* requests.get(index_url) *)
| EvDownload (pkg : Package)        (* self.repo.download_package(pkg) *)
| EvExtract (pkg : Package)         (* mkdir + tarfile extractall *)
| EvRmtree (pkg : Package)          (* pkg_dir.exists() / shutil.rmtree *)
| EvDbAdd (pkg : Package)           (* self.db.add(pkg) *)
| EvDbRemove (nm : string).         (* self.db.remove(name) *)

(** The answers of the outside world while one command runs.  [None] in
    an [option string] answer is a normal return, [Some e] is an
    exception whose [str(e)] is [e].

    [Repository.download_package] is called by [install_package] (line
    500) but [Repository] defines no such method: with the file as it
    stands the call raises [AttributeError] each time, and the
    environments that describe it are those of [as_shipped] below, where
    no install gets past its first call.  The field is an input all the
    same, so that what is proved for every environment also holds once the
    method exists. *)

Record Env := mkEnv {
  getmaxyx : Z * Z;
  getch : Z;
  getstr : string;
  index_json : option (list PkgInfo);
  download_package : Package → option string;
  extractall : Package → option string;
  rmtree : Package → option string;
  save : gmap string Package → option string
}.

(** [str(e)] of the [AttributeError] raised by
    [self.repo.download_package(...)]. *)
Definition no_download_package : string :=
  "'Repository' object has no attribute 'download_package'".

(** The environments of the file as it stands. *)
Definition as_shipped (env : Env) : Prop :=
  ∀ pkg, download_package env pkg = Some no_download_package.

(** ** [PackageManagerTUI] *)

Record PackageManagerTUI := mkTUI {
  db : gmap string Package;                 (* self.db.packages *)
  package_cache : Dict.t;                    (* self.repo.package_cache *)
  packages : list PackageListItem;
  current_index : Z;
  scroll_offset : Z;
  status_message : string;
  show_help : bool;
  trace : list event                         (* calls made so far *)
}.

Definition set_db v st :=
  mkTUI v (package_cache st) (packages st) (current_index st)
        (scroll_offset st) (status_message st) (show_help st) (trace st).
Definition set_package_cache v st :=
  mkTUI (db st) v (packages st) (current_index st)
        (scroll_offset st) (status_message st) (show_help st) (trace st).
Definition set_packages v st :=
  mkTUI (db st) (package_cache st) v (current_index st)
        (scroll_offset st) (status_message st) (show_help st) (trace st).
Definition set_current_index v st :=
  mkTUI (db st) (package_cache st) (packages st) v
        (scroll_offset st) (status_message st) (show_help st) (trace st).
Definition set_scroll_offset v st :=
  mkTUI (db st) (package_cache st) (packages st) (current_index st)
        v (status_message st) (show_help st) (trace st).
Definition set_status_message v st :=
  mkTUI (db st) (package_cache st) (packages st) (current_index st)
        (scroll_offset st) v (show_help st) (trace st).
Definition set_show_help v st :=
  mkTUI (db st) (package_cache st) (packages st) (current_index st)
        (scroll_offset st) (status_message st) v (trace st).
Definition set_trace v st :=
  mkTUI (db st) (package_cache st) (packages st) (current_index st)
        (scroll_offset st) (status_message st) (show_help st) v.

(** ** The method monad *)

Inductive Result (A : Type) :=
| Ok (a : A)
| Raise (e : string).
Arguments Ok {A} a.
Arguments Raise {A} e.

Definition M (A : Type) : Type := PackageManagerTUI → Result A * PackageManagerTUI.

#[global] Instance M_ret : MRet M := λ A a st, (Ok a, st).
#[global] Instance M_bind : MBind M := λ A B f m st,
  match m st with
  | (Ok a, st') => f a st'
  | (Raise e, st') => (Raise e, st')
  end.

Definition get_self : M PackageManagerTUI := λ st, (Ok st, st).
Definition modify (f : PackageManagerTUI → PackageManagerTUI) : M unit :=
  λ st, (Ok tt, f st).
Definition raise {A} (e : string) : M A := λ st, (Raise e, st).
Definition emit (e : event) : M unit :=
  modify (λ st, set_trace (trace st ++ [e]) st).

(** [try: body except Exception as e: handler(str(e))] *)
Definition try_except {A} (body : M A) (handler : string → M A) : M A :=
  λ st, match body st with
        | (Ok a, st') => (Ok a, st')
        | (Raise e, st') => handler e st'
        end.

(** [for x in xs: body(x)] *)
Fixpoint for_each {X} (xs : list X) (body : X → M unit) : M unit :=
  match xs with
  | [] => mret tt
  | x :: xs' => body x ;; for_each xs' body
  end.

(** An outside call that may raise. *)
Definition outcome (r : option string) : M unit :=
  match r with
  | None => mret tt
  | Some e => raise e
  end.

(** The state a method leaves behind. *)
Definition exec {A} (m : M A) (st : PackageManagerTUI) : PackageManagerTUI := (m st).2.

(** ** [PackageDatabase] *)

Definition is_installed (d : gmap string Package) (nm : string) : bool :=
  bool_decide (is_Some (d !! nm)).

(** [self.save()]: writing the ledger file may raise. *)
Definition db_save (env : Env) : M unit :=
  st ← get_self; outcome (save env (db st)).

(** [db.add(package)]: the dictionary is updated before the file is written. *)
Definition db_add (env : Env) (pkg : Package) : M unit :=
  emit (EvDbAdd pkg) ;;
  modify (λ st, set_db (<[name pkg := pkg]> (db st)) st) ;;
  db_save env.

(** [db.remove(package_name)] *)
Definition db_remove (env : Env) (nm : string) : M unit :=
  emit (EvDbRemove nm) ;;
  st ← get_self;
  if is_installed (db st) nm
  then modify (λ st, set_db (delete nm (db st)) st) ;; db_save env
  else mret tt.

(** ** [Repository] *)

Definition package_of_info (i : PkgInfo) : Package :=
  mkPackage (info_name i) (info_version i) (info_description i)
            (info_dependencies i) [] "/opt/pypkg".

Definition fallback_cache : Dict.t :=
  [("sl", mkPackage "sl" "5.0.2"
            "Steam Locomotive - displays a steam locomotive" [] [] "/opt/pypkg")].

(** The loop [for pkg_info in index: self.package_cache[pkg.name] = pkg]. *)
Definition fill_cache (index : list PkgInfo) (d : Dict.t) : Dict.t :=
  foldl (λ d i, Dict.set (info_name i) (package_of_info i) d) d index.

(** [repo.fetch_package_list()].  [index_json env = None] stands for every
    way the [try] block can fail (no answer, a status other than 200, a
    malformed index); the [except] clause then falls through to the
    built-in list. *)
Definition fetch_package_list (env : Env) : M Dict.t :=
  st ← get_self;
  if bool_decide (package_cache st ≠ []) then mret (package_cache st)
  else
    emit EvFetchIndex ;;
    match index_json env with
    | Some index =>
        let cache := fill_cache index (package_cache st) in
        modify (set_package_cache cache) ;; mret cache
    | None =>
        modify (set_package_cache fallback_cache) ;; mret fallback_cache
    end.

(** ** [load_packages] *)

(** [list.sort(key=lambda x: x.package.name)]: a stable sort on the name.
    Python compares [str] code point by code point; on UTF-8 bytes that is
    the byte-wise order of [String.leb]. *)
Fixpoint insert_by_name (x : PackageListItem) (l : list PackageListItem)
  : list PackageListItem :=
  match l with
  | [] => [x]
  | y :: l' =>
      if String.leb (name (package x)) (name (package y))
      then x :: y :: l'
      else y :: insert_by_name x l'
  end.

Definition sort_by_name (l : list PackageListItem) : list PackageListItem :=
  foldr insert_by_name [] l.

Definition load_packages (env : Env) : M unit :=
  modify (set_status_message "Loading packages...") ;;
  emit EvRefresh ;;
  available ← fetch_package_list env;
  st ← get_self;
  let items :=
    (λ kv : string * Package, new_item kv.2 (is_installed (db st) kv.1))
      <$> available in
  let sorted := sort_by_name items in
  modify (set_packages sorted) ;;
  modify (set_status_message
            ("Loaded " +:+ pretty (length sorted) +:+ " packages")).

(** [PackageManagerTUI.__init__], up to the call of [load_packages]. *)
Definition init_tui (ledger : gmap string Package) : PackageManagerTUI :=
  mkTUI ledger [] [] 0 0 "Welcome to PyPkg TUI" false [].

Definition new_tui (env : Env) (ledger : gmap string Package) : PackageManagerTUI :=
  exec (load_packages env) (init_tui ledger).

(** [self.draw()] *)
Definition draw : M unit :=
  st ← get_self; emit (EvDraw (status_message st)).

(** ** Cursor movement: the branches of [handle_input] *)

Definition KEY_DOWN : Z := 258.
Definition KEY_UP : Z := 259.
Definition KEY_HOME : Z := 262.
Definition KEY_NPAGE : Z := 338.
Definition KEY_PPAGE : Z := 339.
Definition KEY_END : Z := 360.

(** [len(self.packages)] *)
Definition len_packages (st : PackageManagerTUI) : Z :=
  Z.of_nat (length (packages st)).

Definition key_up (st : PackageManagerTUI) : PackageManagerTUI :=
  if current_index st >? 0 then
    let st1 := set_current_index (current_index st - 1) st in
    if current_index st1 <? scroll_offset st1
    then set_scroll_offset (current_index st1) st1
    else st1
  else st.

Definition key_down (list_height : Z) (st : PackageManagerTUI) : PackageManagerTUI :=
  if current_index st <? len_packages st - 1 then
    let st1 := set_current_index (current_index st + 1) st in
    if current_index st1 >=? scroll_offset st1 + list_height
    then set_scroll_offset (current_index st1 - list_height + 1) st1
    else st1
  else st.

Definition key_ppage (list_height : Z) (st : PackageManagerTUI) : PackageManagerTUI :=
  let st1 := set_current_index (Z.max 0 (current_index st - list_height)) st in
  set_scroll_offset (Z.max 0 (scroll_offset st1 - list_height)) st1.

Definition key_npage (list_height : Z) (st : PackageManagerTUI) : PackageManagerTUI :=
  let st1 :=
    set_current_index
      (Z.min (len_packages st - 1) (current_index st + list_height)) st in
  set_scroll_offset
    (Z.min (len_packages st1 - list_height) (scroll_offset st1 + list_height)) st1.

Definition key_home (st : PackageManagerTUI) : PackageManagerTUI :=
  set_scroll_offset 0 (set_current_index 0 st).

Definition key_end (list_height : Z) (st : PackageManagerTUI) : PackageManagerTUI :=
  let st1 := set_current_index (len_packages st - 1) st in
  set_scroll_offset (Z.max 0 (len_packages st1 - list_height)) st1.

(** ** Marking *)

Definition set_action (a : PackageAction) (it : PackageListItem) : PackageListItem :=
  mkItem (package it) (installed it) a.
Definition set_installed (b : bool) (it : PackageListItem) : PackageListItem :=
  mkItem (package it) b (action it).

(** The guard [0 <= self.current_index < len(self.packages)] followed by
    [item = self.packages[self.current_index]]. *)
Definition current_item (st : PackageManagerTUI) : option (nat * PackageListItem) :=
  if (0 <=? current_index st) && (current_index st <? len_packages st)
  then (λ it, (Z.to_nat (current_index st), it))
         <$> packages st !! Z.to_nat (current_index st)
  else None.

Definition mark_for_install (st : PackageManagerTUI) : PackageManagerTUI :=
  match current_item st with
  | Some (i, item) =>
      if negb (installed item) then
        set_status_message
          ("Marked " +:+ name (package item) +:+ " for installation")
          (set_packages (alter (set_action INSTALL) i (packages st)) st)
      else
        set_status_message (name (package item) +:+ " is already installed") st
  | None => st
  end.

Definition mark_for_remove (st : PackageManagerTUI) : PackageManagerTUI :=
  match current_item st with
  | Some (i, item) =>
      if installed item then
        set_status_message
          ("Marked " +:+ name (package item) +:+ " for removal")
          (set_packages (alter (set_action REMOVE) i (packages st)) st)
      else
        set_status_message (name (package item) +:+ " is not installed") st
  | None => st
  end.

(** ** The transaction steps

    [item] is a reference into [self.packages]: the argument [i] is the
    position of that object.  A position outside the list cannot be
    produced by [apply_changes]; the step is then empty. *)

Definition update_item (i : nat) (f : PackageListItem → PackageListItem) : M unit :=
  modify (λ st, set_packages (alter f i (packages st)) st).

Definition install_package (env : Env) (i : nat) : M unit :=
  st ← get_self;
  match packages st !! i with
  | None => mret tt
  | Some item =>
      let pkg := package item in
      modify (set_status_message ("Installing " +:+ name pkg +:+ "...")) ;;
      draw ;;
      try_except
        (emit (EvDownload pkg) ;; outcome (download_package env pkg) ;;
         emit (EvExtract pkg) ;; outcome (extractall env pkg) ;;
         db_add env pkg ;;
         update_item i (set_installed true) ;;
         update_item i (set_action NONE) ;;
         modify (set_status_message ("Successfully installed " +:+ name pkg)))
        (λ e, modify (set_status_message
                        ("Error installing " +:+ name pkg +:+ ": " +:+ e)))
  end.

Definition remove_package (env : Env) (i : nat) : M unit :=
  st ← get_self;
  match packages st !! i with
  | None => mret tt
  | Some item =>
      let pkg := package item in
      modify (set_status_message ("Removing " +:+ name pkg +:+ "...")) ;;
      draw ;;
      try_except
        (emit (EvRmtree pkg) ;; outcome (rmtree env pkg) ;;
         db_remove env (name pkg) ;;
         update_item i (set_installed false) ;;
         update_item i (set_action NONE) ;;
         modify (set_status_message ("Successfully removed " +:+ name pkg)))
        (λ e, modify (set_status_message
                        ("Error removing " +:+ name pkg +:+ ": " +:+ e)))
  end.

(** ** [apply_changes] *)

(** The references collected by
    [[item for item in self.packages if item.action == a]]. *)
Fixpoint marked_from (a : PackageAction) (k : nat) (l : list PackageListItem)
  : list nat :=
  match l with
  | [] => []
  | it :: l' =>
      if decide (action it = a)
      then k :: marked_from a (S k) l'
      else marked_from a (S k) l'
  end.

Definition marked (a : PackageAction) (l : list PackageListItem) : list nat :=
  marked_from a 0 l.

(** [key = self.stdscr.getch()] *)
Definition read_key (env : Env) : M Z :=
  emit (EvGetch (getch env)) ;; mret (getch env).

Definition is_empty {X} (l : list X) : bool :=
  match l with [] => true | _ => false end.

Definition apply_changes (env : Env) : M unit :=
  st ← get_self;
  let to_install := marked INSTALL (packages st) in
  let to_remove := marked REMOVE (packages st) in
  if is_empty to_install && is_empty to_remove then
    modify (set_status_message "No changes to apply")
  else
    modify (set_status_message
              ("Apply " +:+ pretty (length to_install) +:+ " installs, "
               +:+ pretty (length to_remove) +:+ " removals? (y/n)")) ;;
    draw ;;
    key ← read_key env;
    if negb (key =? ord "y") && negb (key =? ord "Y") then
      modify (set_status_message "Changes cancelled")
    else
      for_each to_install (install_package env) ;;
      for_each to_remove (remove_package env) ;;
      load_packages env.

(** ** [search_packages] *)

(** [query.lower() in item.package.name.lower() or
     query.lower() in item.package.description.lower()] *)
Definition matches (query : string) (it : PackageListItem) : bool :=
  contains (lower query) (lower (name (package it))) ||
  contains (lower query) (lower (description (package it))).

Definition search_packages (env : Env) : M unit :=
  let query := getstr env in
  emit (EvGetstr query) ;;
  if bool_decide (query ≠ "") then
    st ← get_self;
    match list_find (λ it, matches query it = true) (packages st) with
    | Some (i, item) =>
        modify (set_current_index (Z.of_nat i)) ;;
        modify (set_scroll_offset (Z.max 0 (Z.of_nat i - 5))) ;;
        modify (set_status_message ("Found: " +:+ name (package item)))
    | None =>
        modify (set_status_message ("No packages matching '" +:+ query +:+ "'"))
    end
  else
    modify (set_status_message "Search cancelled").

(** ** [handle_input] *)

Definition handle_input (env : Env) (key : Z) : M bool :=
  let list_height := (getmaxyx env).1 - 5 in
  st ← get_self;
  if show_help st then modify (set_show_help false) ;; mret true
  else if key =? ord "q" then mret false
  else
    (if key =? ord "?" then modify (set_show_help true)
     else if (key =? KEY_UP) || (key =? ord "k") then modify key_up
     else if (key =? KEY_DOWN) || (key =? ord "j") then modify (key_down list_height)
     else if key =? KEY_PPAGE then modify (key_ppage list_height)
     else if key =? KEY_NPAGE then modify (key_npage list_height)
     else if key =? KEY_HOME then modify key_home
     else if key =? KEY_END then modify (key_end list_height)
     else if key =? ord "+" then modify mark_for_install
     else if key =? ord "-" then modify mark_for_remove
     else if key =? ord "g" then apply_changes env
     else if key =? ord "u" then load_packages env
     else if key =? ord "/" then search_packages env
     else mret tt) ;;
    mret true.

(** A session: one [Env] and one key per iteration of [run]'s loop (the
    repaint at the top of the loop is recorded in the trace).  The loop
    ends at the first [False] or exception. *)
Fixpoint run (inputs : list (Env * Z)) : M unit :=
  match inputs with
  | [] => mret tt
  | (env, key) :: rest =>
      draw ;;
      emit (EvGetch key) ;;
      continue ← handle_input env key;
      if continue : bool then run rest else mret tt
  end.

(** ** Sample sessions

    Every sample state below is reached from [__init__] by key presses. *)

Definition press (env : Env) (key : Z) (st : PackageManagerTUI) : PackageManagerTUI :=
  exec (handle_input env key) st.

Definition sl : Package :=
  mkPackage "sl" "5.0.2" "Steam Locomotive - displays a steam locomotive"
            [] [] "/opt/pypkg".

(** A 24x80 terminal, no network, every file operation succeeds, and [n]
    is the key pressed at a prompt. *)
Definition quiet_env : Env :=
  mkEnv (24, 80) (ord "n") "" None
        (λ _, None) (λ _, None) (λ _, None) (λ _, None).

(** The same terminal with an index served by the repository and [y]
    pressed at a prompt. *)
Definition index_env (index : list PkgInfo) : Env :=
  mkEnv (24, 80) (ord "y") "" (Some index)
        (λ _, None) (λ _, None) (λ _, None) (λ _, None).

(** No network, the download and the directory removal fail, [y] is
    pressed at a prompt. *)
Definition failing_env : Env :=
  mkEnv (24, 80) (ord "y") "" None
        (λ _, Some "connection refused") (λ _, None)
        (λ _, Some "permission denied") (λ _, None).

(** The line typed at the search prompt is [q]. *)
Definition query_env (q : string) : Env :=
  mkEnv (24, 80) (ord "n") q None
        (λ _, None) (λ _, None) (λ _, None) (λ _, None).

Definition sl_info : PkgInfo := mkInfo "sl" "5.0.2" "Steam Locomotive" [].
Definition vim_info : PkgInfo := mkInfo "vim" "9.1" "Vi IMproved" [].
Definition git_info : PkgInfo := mkInfo "git" "2.45" "Version control" [].
Definition git_lfs_info : PkgInfo := mkInfo "git-lfs" "3.5" "Large file storage" [].

Definition vim : Package := package_of_info vim_info.
Definition git : Package := package_of_info git_info.
Definition git_lfs : Package := package_of_info git_lfs_info.

Definition vim_ledger : gmap string Package := {["vim" := vim]}.

(** Started without network and with an empty ledger: the built-in list. *)
Definition marking_sample : PackageManagerTUI := new_tui quiet_env ∅.

(** ... then [+] on [sl]. *)
Definition marked_sample : PackageManagerTUI :=
  press quiet_env (ord "+") marking_sample.

(** Started without network with [sl] in the ledger, then [-] on [sl]. *)
Definition installed_marked_sample : PackageManagerTUI :=
  press quiet_env (ord "-") (new_tui quiet_env {["sl" := sl]}).

(** Index [sl], [vim]; [vim] in the ledger; [+] on [sl], down, [-] on [vim]. *)
Definition two_marked_sample : PackageManagerTUI :=
  press quiet_env (ord "-")
    (press quiet_env KEY_DOWN
       (press quiet_env (ord "+")
          (new_tui (index_env [sl_info; vim_info]) vim_ledger))).

(** Index [git], [git-lfs]; the cursor is on [git]. *)
Definition git_sample : PackageManagerTUI :=
  new_tui (index_env [git_info; git_lfs_info]) ∅.

(** Index [pkg0] .. [pkg6]. *)
Definition seven_index : list PkgInfo :=
  (λ k : nat, mkInfo ("pkg" +:+ pretty k) "1.0" "" []) <$> seq 0 7.

Definition seven_sample : PackageManagerTUI :=
  new_tui (index_env seven_index) ∅.

(** ** Vocabulary of the properties *)

(** The prompt shown before a batch is run. *)
Definition prompt (st : PackageManagerTUI) : string :=
  "Apply " +:+ pretty (length (marked INSTALL (packages st))) +:+ " installs, "
  +:+ pretty (length (marked REMOVE (packages st))) +:+ " removals? (y/n)".

Ltac unfold_monad :=
  unfold try_except, draw, db_add, db_remove, db_save, update_item, read_key,
    emit, modify, outcome, raise, mbind, M_bind, get_self, mret, M_ret in *.

(** Why an install of [pkg] fails, if it does: the download, then the
    extraction, then the write of the ledger with [pkg] added. *)
Definition install_failure (env : Env) (d : gmap string Package) (pkg : Package)
  : option string :=
  match download_package env pkg with
  | Some e => Some e
  | None =>
      match extractall env pkg with
      | Some e => Some e
      | None => save env (<[name pkg := pkg]> d)
      end
  end.

(** Why a removal of [pkg] fails, if it does: the deletion of its
    directory, then the write of the ledger without it (there is no write
    when the ledger does not list the package). *)
Definition remove_failure (env : Env) (d : gmap string Package) (pkg : Package)
  : option string :=
  match rmtree env pkg with
  | Some e => Some e
  | None =>
      if is_installed d (name pkg) then save env (delete (name pkg) d) else None
  end.

(** The steps of a batch as they show in the trace: an install step starts
    with the download, a remove step with the directory deletion. *)
Inductive step :=
| StepInstall (nm : string)
| StepRemove (nm : string).

Definition step_of_event (e : event) : option step :=
  match e with
  | EvDownload pkg => Some (StepInstall (name pkg))
  | EvRmtree pkg => Some (StepRemove (name pkg))
  | _ => None
  end.

Definition steps_of (tr : list event) : list step := omap step_of_event tr.

(** [INSTALL] is pending only on an entry that is not installed, [REMOVE]
    and [PURGE] only on an installed one. *)
Definition entry_ok (it : PackageListItem) : Prop :=
  (action it = INSTALL → installed it = false) ∧
  (action it = REMOVE ∨ action it = PURGE → installed it = true).

(** Every entry of the catalog meets the entry invariant. *)
Definition catalog_ok (st : PackageManagerTUI) : Prop :=
  Forall entry_ok (packages st).

(** What no transaction step touches: the cursor, the repository cache,
    the help flag and which package sits at which position. *)
Definition step_frame (st st' : PackageManagerTUI) : Prop :=
  current_index st' = current_index st ∧
  scroll_offset st' = scroll_offset st ∧
  package_cache st' = package_cache st ∧
  show_help st' = show_help st ∧
  package <$> packages st' = package <$> packages st ∧
  (catalog_ok st → catalog_ok st').

(** Python's [<] on [str]. *)
Definition str_lt (a b : string) : Prop := (a ?= b)%string = Lt.

(** The order [load_packages] sorts by. *)
Definition item_le (x y : PackageListItem) : Prop :=
  String.le (name (package x)) (name (package y)).

(** The dictionary [fetch_package_list] returns (and leaves in the cache). *)
Definition available (env : Env) (cache : Dict.t) : Dict.t :=
  match cache with
  | [] =>
      match index_json env with
      | Some index => fill_cache index []
      | None => fallback_cache
      end
  | _ => cache
  end.

(** The key read at the prompt is [y] or [Y]. *)
Definition confirmed (env : Env) : bool :=
  (getch env =? ord "y") || (getch env =? ord "Y").

(** The steps of a batch over catalog [l]: the entries marked [INSTALL] in
    catalog order, then the entries marked [REMOVE] in catalog order. *)
Definition batch_steps (l : list PackageListItem) : list step :=
  ((StepInstall ∘ name ∘ package) <$> filter (λ it, action it = INSTALL) l)
  ++ ((StepRemove ∘ name ∘ package) <$> filter (λ it, action it = REMOVE) l).

(** The repository answers with an empty index. *)
Definition empty_index_env : Env := index_env [].

(** [q] occurs in [s] when letter case (ASCII) is disregarded. *)
Definition occurs_ci (q s : string) : Prop :=
  ∃ pre post, lower s = pre +:+ lower q +:+ post.

Definition entry_matches (q : string) (it : PackageListItem) : Prop :=
  occurs_ci q (name (package it)) ∨ occurs_ci q (description (package it)).

(** The resolver as the specification words it: scan forward from the
    entry after [startAfter], wrap to index 0, stop after a full turn (the
    entry at [startAfter] comes last). *)
Definition scan_order (n : nat) (startAfter : Z) : list nat :=
  let first := Z.to_nat (startAfter + 1) in
  seq first (n - first) ++ seq 0 (Nat.min first n).

Definition findByQuery_spec (catalog : list PackageListItem) (query : string)
    (startAfter : Z) : option nat :=
  head (filter (λ i, from_option (matches query) false (catalog !! i) = true)
               (scan_order (length catalog) startAfter)).

(** The cursor commands, and the key (and typed line) that issues each. *)
Inductive cursor_cmd :=
| MoveUp | MoveDown | PageUp | PageDown | Home | End
| Search (query : string).

#[global] Instance cursor_cmd_eq_dec : EqDecision cursor_cmd.
Proof. solve_decision. Defined.

Definition cmd_key (c : cursor_cmd) : Z :=
  match c with
  | MoveUp => KEY_UP
  | MoveDown => KEY_DOWN
  | PageUp => KEY_PPAGE
  | PageDown => KEY_NPAGE
  | Home => KEY_HOME
  | End => KEY_END
  | Search _ => ord "/"
  end.

(** A terminal that leaves [list_height] rows for the list, and the line
    typed at the search prompt. *)
Definition cmd_env (list_height : Z) (c : cursor_cmd) : Env :=
  mkEnv (list_height + 5, 80) (ord "n")
        (match c with Search q => q | _ => "" end) None
        (λ _, None) (λ _, None) (λ _, None) (λ _, None).

Definition do_cmd (list_height : Z) (st : PackageManagerTUI) (c : cursor_cmd)
  : PackageManagerTUI :=
  exec (handle_input (cmd_env list_height c) (cmd_key c)) st.

Definition do_cmds (list_height : Z) (cs : list cursor_cmd)
    (st : PackageManagerTUI) : PackageManagerTUI :=
  foldl (do_cmd list_height) st cs.

(** The bounds of the specification. *)
Definition cursor_ok (list_height : Z) (st : PackageManagerTUI) : Prop :=
  (0 <= current_index st < len_packages st) ∧
  (0 <= scroll_offset st <= Z.max 0 (len_packages st - list_height)).

(** Bounds on the selection that every command keeps: a position of the
    list, or [-1] or [0] over an empty list. *)
Definition index_ok (st : PackageManagerTUI) : Prop :=
  Z.min 0 (len_packages st - 1) <= current_index st
  <= Z.max 0 (len_packages st - 1).

(** Bounds on the scroll offset with searches among the commands. *)
Definition scroll_loose (list_height : Z) (st : PackageManagerTUI) : Prop :=
  0 <= scroll_offset st
  <= Z.max (Z.max 0 (len_packages st - list_height)) (len_packages st - 6).

(** Bounds on the scroll offset as the specification gives them. *)
Definition scroll_ok (list_height : Z) (st : PackageManagerTUI) : Prop :=
  0 <= scroll_offset st <= Z.max 0 (len_packages st - list_height).

Ltac bool_to_prop :=
  repeat match goal with
         | H : (_ >? _) = _ |- _ => rewrite Z.gtb_ltb in H
         | H : (_ >=? _) = _ |- _ => rewrite Z.geb_leb in H
         | H : (_ <? _) = true |- _ => apply Z.ltb_lt in H
         | H : (_ <? _) = false |- _ => apply Z.ltb_ge in H
         | H : (_ <=? _) = true |- _ => apply Z.leb_le in H
         | H : (_ <=? _) = false |- _ => apply Z.leb_gt in H
         end.

Ltac cursor_step :=
  unfold key_up, key_down, key_ppage, key_npage, key_home, key_end,
    index_ok, scroll_loose, scroll_ok, len_packages in *;
  repeat case_match; cbn in *; bool_to_prop; try lia.

(** ** More of [Repository]: [get_package_info]

    [requirements] is the answer to the request for [requirements.txt]:
    [Some deps] for a status 200 whose text splits into the non-blank,
    stripped lines [deps]; [None] for any other status or an exception.
    [version_arg] is the parameter [version] ([None] when left out). *)

Definition get_package_info (requirements : option (list string))
    (package_name : string) (version_arg : option string) : M (option Package) :=
  st ← get_self;
  let hit :=
    match Dict.get package_name (package_cache st) with
    | Some cached =>
        match version_arg with
        | None => Some cached
        | Some v => if String.eqb (version cached) v then Some cached else None
        end
    | None => None
    end in
  match hit with
  | Some cached => mret (Some cached)
  | None =>
      match version_arg with
      | Some v =>
          if bool_decide (v ≠ "") then
            match requirements with
            | Some deps =>
                let pkg := mkPackage package_name v ("Package " +:+ package_name)
                                     deps [] "/opt/pypkg" in
                modify (λ st, set_package_cache
                                (Dict.set package_name pkg (package_cache st)) st) ;;
                mret (Some pkg)
            | None => mret None
            end
          else mret None
      | None => mret None
      end
  end.

(** ** More of [PackageDatabase]: [get] *)

Definition db_get (d : gmap string Package) (nm : string) : option Package :=
  d !! nm.

(** ** Painting the list: [get_display_line] and [draw_package_list] *)

(** A byte that continues a code point in UTF-8 ([10xxxxxx]); every other
    byte starts one. *)
Definition is_continuation (c : ascii) : bool :=
  let n := N_of_ascii c in ((128 <=? n) && (n <? 192))%N.

(** The number of code points of a text. *)
Fixpoint code_points (s : string) : nat :=
  match s with
  | EmptyString => O
  | String c s' => ((if is_continuation c then 0 else 1) + code_points s')%nat
  end.

(** The first [n] code points of a text, each with all its bytes. *)
Fixpoint take_code_points (n : nat) (s : string) : string :=
  match s with
  | EmptyString => EmptyString
  | String c s' =>
      if is_continuation c then String c (take_code_points n s')
      else match n with
           | O => EmptyString
           | S n' => String c (take_code_points n' s')
           end
  end.

(** [len(s)] *)
Definition str_len (s : string) : Z := Z.of_nat (code_points s).

(** [s[:n]]: the first [n] characters, or all but the last [-n] when [n]
    is negative. *)
Definition slice_to (n : Z) (s : string) : string :=
  if n <? 0
  then take_code_points (Z.to_nat (str_len s + n)) s
  else take_code_points (Z.to_nat n) s.

(** [n] spaces. *)
Fixpoint spaces (n : nat) : string :=
  match n with
  | O => ""
  | S n' => String " " (spaces n')
  end.

(** [s.ljust(n)] *)
Definition ljust (n : Z) (s : string) : string :=
  s +:+ spaces (Z.to_nat (n - str_len s)).

(** [l[z]] with Python's negative positions; [None] is [IndexError]. *)
Definition py_index {A} (l : list A) (z : Z) : option A :=
  let n := Z.of_nat (length l) in
  if (0 <=? z) && (z <? n) then l !! Z.to_nat z
  else if (- n <=? z) && (z <? 0) then l !! Z.to_nat (n + z)
  else None.

Definition get_display_line (it : PackageListItem) (width : Z) : string :=
  let status := String (get_status_char it) "" in
  let name_width := 20 in
  let version_width := 12 in
  let nm := ljust name_width (slice_to name_width (name (package it))) in
  let ver := ljust version_width (slice_to version_width (version (package it))) in
  let desc_width := width - name_width - version_width - 6 in
  let desc := if desc_width >? 0
              then slice_to desc_width (description (package it)) else "" in
  status +:+ " " +:+ nm +:+ " " +:+ ver +:+ " " +:+ desc.

(** [curses.color_pair(n)] and [curses.A_BOLD] as ncurses encodes them:
    the pair number sits in bits 8 to 15, bold is bit 21. *)
Definition color_pair (n : Z) : Z := Z.shiftl n 8.
Definition A_BOLD : Z := Z.shiftl 1 21.

(** The pair number an attribute word selects ([PAIR_NUMBER]). *)
Definition pair_number (attr : Z) : Z := Z.shiftr (Z.land attr 65280) 8.

(** One [addstr] of the list: the screen line, the attribute and the text. *)
Record row := mkRow {
  row_y : Z;
  row_attr : Z;
  row_text : string
}.

(** The colour chosen for an item, before and after the highlight. *)
Definition item_color (it : PackageListItem) : Z :=
  match action it with
  | INSTALL => color_pair 3
  | REMOVE | PURGE => color_pair 4
  | NONE => if installed it then color_pair 2 else color_pair 0
  end.

Definition row_color (selected : bool) (it : PackageListItem) : Z :=
  if selected
  then Z.lor (item_color it) (Z.lor (color_pair 1) A_BOLD)
  else item_color it.

(** The loop [for i in range(list_height)] from iteration [i] on, with
    [n] iterations left.  [self.packages[list_index]] is outside the
    [try], so its [IndexError] leaves the method. *)
Fixpoint paint_rows (width : Z) (st : PackageManagerTUI) (n : nat) (i : Z)
  : Result (list row) :=
  match n with
  | O => Ok []
  | S n' =>
      let list_index := i + scroll_offset st in
      if list_index >=? len_packages st then Ok []
      else
        match py_index (packages st) list_index with
        | None => Raise "list index out of range"
        | Some item =>
            let r := mkRow (i + 2)
                           (row_color (list_index =? current_index st) item)
                           (ljust (width - 1)
                              (slice_to (width - 1) (get_display_line item width))) in
            match paint_rows width st n' (i + 1) with
            | Ok rows => Ok (r :: rows)
            | Raise e => Raise e
            end
        end
  end.

(** [draw_package_list] from its loop on (lines 258 to 286): the rows
    painted below the column headers, once these are written. *)
Definition draw_package_list (env : Env) (st : PackageManagerTUI)
  : Result (list row) :=
  let '(height, width) := getmaxyx env in
  let list_height := height - 5 in
  paint_rows width st (Z.to_nat list_height) 0.

(** The whole of [draw_package_list].  The column headers are written
    first, by an [addstr] on screen line 1 that no [try] guards (line
    255): when curses refuses it, on a terminal too small for it, its
    [curses.error] leaves the method before any row is painted.  Whether
    curses accepts the text is decided outside this file, so the outcome
    of that call is an input: [None] when it returns, [Some e] when it
    raises with message [e]. *)
Definition draw_package_list_headed (header : option string) (env : Env)
    (st : PackageManagerTUI) : Result (list row) :=
  match header with
  | Some e => Raise e
  | None => draw_package_list env st
  end.

(** ** More vocabulary *)

(** The selected entry lies in the window of [list_height] rows that
    starts at the scroll offset. *)
Definition visible (list_height : Z) (st : PackageManagerTUI) : Prop :=
  scroll_offset st <= current_index st < scroll_offset st + list_height.

(** The keys [handle_input] reacts to. *)
Definition bound_keys : list Z :=
  [ord "q"; ord "?"; KEY_UP; ord "k"; KEY_DOWN; ord "j"; KEY_PPAGE; KEY_NPAGE;
   KEY_HOME; KEY_END; ord "+"; ord "-"; ord "g"; ord "u"; ord "/"].

(** Every outside call succeeds except the write of the ledger file; [y]
    is pressed at a prompt. *)
Definition save_fails_env : Env :=
  mkEnv (24, 80) (ord "y") "" None
        (λ _, None) (λ _, None) (λ _, None) (λ _, Some "disk full").

(** The file as it stands: the download raises [AttributeError], every
    other outside call succeeds; [y] is pressed at a prompt. *)
Definition shipped_env : Env :=
  mkEnv (24, 80) (ord "y") "" None
        (λ _, Some no_download_package) (λ _, None) (λ _, None) (λ _, None).

(** The number of keys read from the terminal in a trace. *)
Definition is_getch (e : event) : bool :=
  match e with
  | EvGetch _ => true
  | _ => false
  end.

Fixpoint key_reads (tr : list event) : nat :=
  match tr with
  | [] => 0
  | e :: tr' => ((if is_getch e then 1 else 0) + key_reads tr')%nat
  end.

Ltac visible_step :=
  unfold visible, key_up, key_down, key_ppage, key_npage, key_home, key_end,
    len_packages in *;
  repeat case_match; cbn in *; bool_to_prop; try lia.

(** * Properties *)

(** ** The sample sessions *)

Example marking_sample_packages :
  packages marking_sample = [new_item sl false].
Proof. reflexivity. Qed.

Example marked_sample_packages :
  packages marked_sample = [mkItem sl false INSTALL].
Proof. by vm_compute. Qed.

Example installed_marked_sample_packages :
  packages installed_marked_sample = [mkItem sl true REMOVE].
Proof. by vm_compute. Qed.

Example two_marked_sample_packages :
  packages two_marked_sample
  = [mkItem (package_of_info sl_info) false INSTALL; mkItem vim true REMOVE].
Proof. by vm_compute. Qed.

Example git_sample_packages :
  packages git_sample = [new_item git false; new_item git_lfs false].
Proof. by vm_compute. Qed.

(** ** Marking *)

Lemma current_item_Some st i item :
  current_index st = Z.of_nat i →
  packages st !! i = Some item →
  current_item st = Some (i, item).
Proof.
  intros Hi Hl. unfold current_item, len_packages.
  apply lookup_lt_Some in Hl as Hlt.
  rewrite Hi, Nat2Z.id, Hl.
  replace (0 <=? Z.of_nat i) with true by (symmetry; apply Z.leb_le; lia).
  replace (Z.of_nat i <? Z.of_nat (length (packages st))) with true
    by (symmetry; apply Z.ltb_lt; lia).
  reflexivity.
Qed.

Lemma current_item_inv st i item :
  current_item st = Some (i, item) →
  current_index st = Z.of_nat i ∧ packages st !! i = Some item.
Proof.
  unfold current_item.
  destruct (0 <=? current_index st) eqn:H0; [|discriminate].
  destruct (current_index st <? len_packages st); [|discriminate].
  simpl. apply Z.leb_le in H0.
  destruct (packages st !! Z.to_nat (current_index st)) eqn:Hl; [|discriminate].
  simpl. intros [= <- <-]. split; [lia|done].
Qed.

(** C6.  Marking the entry under the cursor: [mark_for_install] on an
    installed entry changes no entry and reports "<name> is already
    installed"; [mark_for_remove] on an entry that is not installed changes
    no entry and reports "<name> is not installed"; otherwise the entry's
    action becomes [INSTALL], respectively [REMOVE], and nothing else in
    the catalog changes. *)
Theorem mark_rejects_or_sets st i item :
  current_index st = Z.of_nat i →
  packages st !! i = Some item →
  (installed item = true →
     packages (mark_for_install st) = packages st ∧
     status_message (mark_for_install st)
       = name (package item) +:+ " is already installed") ∧
  (installed item = false →
     packages (mark_for_install st)
       = <[i := mkItem (package item) false INSTALL]> (packages st)) ∧
  (installed item = false →
     packages (mark_for_remove st) = packages st ∧
     status_message (mark_for_remove st)
       = name (package item) +:+ " is not installed") ∧
  (installed item = true →
     packages (mark_for_remove st)
       = <[i := mkItem (package item) true REMOVE]> (packages st)).
Proof.
  intros Hi Hl. pose proof (current_item_Some _ _ _ Hi Hl) as Hc.
  unfold mark_for_install, mark_for_remove. rewrite Hc.
  assert (Halt : ∀ a, alter (set_action a) i (packages st)
                      = <[i := set_action a item]> (packages st)).
  { intros a. apply list_eq. intros j.
    destruct (decide (i = j)) as [<-|Hne].
    - rewrite list_lookup_alter_eq, Hl.
      rewrite list_lookup_insert_eq by (by eapply lookup_lt_Some). done.
    - rewrite list_lookup_alter_ne, list_lookup_insert_ne by done. done. }
  split; [|split; [|split]]; intros Hinst; rewrite Hinst; simpl; try done;
    rewrite Halt; unfold set_action; rewrite Hinst; done.
Qed.

Lemma mark_rejects_or_sets_witness :
  packages (mark_for_install marking_sample) = [mkItem sl false INSTALL] ∧
  status_message (mark_for_remove marking_sample) = "sl is not installed".
Proof.
  pose proof (mark_rejects_or_sets marking_sample 0 (new_item sl false)
                eq_refl eq_refl) as (_ & H2 & H3 & _).
  split; [exact (H2 eq_refl) | exact (proj2 (H3 eq_refl))].
Defined.

(** ** The plan *)

Lemma marked_from_nil a k l :
  marked_from a k l = [] ↔ Forall (λ it, action it ≠ a) l.
Proof.
  revert k. induction l as [|it l IH]; intros k; simpl.
  - split; [constructor | done].
  - destruct (decide (action it = a)) as [Ha|Ha].
    + split; [discriminate|]. intros H. inversion H; subst. done.
    + rewrite IH. split; [by constructor|]. intros H. by inversion H.
Qed.

Lemma marked_nil a l :
  marked a l = [] ↔ Forall (λ it, action it ≠ a) l.
Proof. apply marked_from_nil. Qed.

Lemma is_empty_true {X} (l : list X) : is_empty l = true ↔ l = [].
Proof. destruct l; simpl; split; congruence. Qed.

Lemma plan_nonempty l :
  Exists (λ it, action it = INSTALL ∨ action it = REMOVE) l →
  is_empty (marked INSTALL l) && is_empty (marked REMOVE l) = false.
Proof.
  intros Hex. apply not_true_is_false. intros Hb.
  apply andb_true_iff in Hb as [Hi Hr].
  apply is_empty_true, marked_nil in Hi.
  apply is_empty_true, marked_nil in Hr.
  apply Exists_exists in Hex as (it & Hin & Hact).
  rewrite Forall_forall in Hi, Hr.
  destruct Hact as [Ha|Ha]; [by apply (Hi it) | by apply (Hr it)].
Qed.

(** C8.  When no entry has a pending action both halves of the plan are
    empty, and [apply_changes] returns at once: the only change is the
    status line "No changes to apply"; no key is read, nothing is drawn
    and no installer or ledger call is made (the trace is as before). *)
Theorem no_pending_no_prompt env st :
  Forall (λ it, action it = NONE) (packages st) →
  marked INSTALL (packages st) = [] ∧
  marked REMOVE (packages st) = [] ∧
  apply_changes env st = (Ok tt, set_status_message "No changes to apply" st) ∧
  trace (exec (apply_changes env) st) = trace st.
Proof.
  intros Hnone.
  assert (Hi : marked INSTALL (packages st) = []).
  { apply marked_nil. eapply Forall_impl; [exact Hnone|]. simpl. congruence. }
  assert (Hr : marked REMOVE (packages st) = []).
  { apply marked_nil. eapply Forall_impl; [exact Hnone|]. simpl. congruence. }
  assert (Hrun : apply_changes env st
                 = (Ok tt, set_status_message "No changes to apply" st)).
  { unfold apply_changes, mbind, M_bind, get_self. rewrite Hi, Hr. reflexivity. }
  repeat split; try done. unfold exec. by rewrite Hrun.
Qed.

Lemma no_pending_no_prompt_witness :
  trace (exec (apply_changes quiet_env) marking_sample) = trace marking_sample.
Proof.
  apply (no_pending_no_prompt quiet_env marking_sample).
  rewrite marking_sample_packages. repeat constructor.
Defined.

(** C5.  When the plan is not empty and the key read at the prompt is
    neither [y] nor [Y], [apply_changes] returns normally with the status
    "Changes cancelled".  The catalog (every installed flag and every
    pending action), the ledger and the cursor are as before, and the only
    outside calls are the repaint showing the prompt and the single key
    read: no download, extraction, removal or ledger call. *)
Theorem declined_changes_nothing env st :
  Exists (λ it, action it = INSTALL ∨ action it = REMOVE) (packages st) →
  getch env ≠ ord "y" →
  getch env ≠ ord "Y" →
  apply_changes env st
    = (Ok tt,
       set_status_message "Changes cancelled"
         (set_trace (trace st ++ [EvDraw (prompt st); EvGetch (getch env)]) st)) ∧
  let st' := exec (apply_changes env) st in
  packages st' = packages st ∧ db st' = db st ∧
  package_cache st' = package_cache st ∧
  current_index st' = current_index st ∧
  scroll_offset st' = scroll_offset st ∧
  status_message st' = "Changes cancelled" ∧
  trace st' = trace st ++ [EvDraw (prompt st); EvGetch (getch env)].
Proof.
  intros Hplan Hy HY.
  assert (Hrun : apply_changes env st
    = (Ok tt,
       set_status_message "Changes cancelled"
         (set_trace (trace st ++ [EvDraw (prompt st); EvGetch (getch env)]) st))).
  { unfold apply_changes, mbind, M_bind, get_self.
    rewrite (plan_nonempty _ Hplan).
    unfold draw, read_key, emit, modify, mbind, M_bind, get_self, mret, M_ret.
    cbn [fst snd status_message trace set_status_message set_trace].
    apply Z.eqb_neq in Hy, HY. rewrite Hy, HY.
    cbn [negb andb]. unfold set_status_message, set_trace. cbn.
    rewrite <- app_assoc. reflexivity. }
  split; [exact Hrun|]. unfold exec. rewrite Hrun. cbn. done.
Qed.

Lemma declined_changes_nothing_witness :
  packages (exec (apply_changes quiet_env) marked_sample)
    = [mkItem sl false INSTALL].
Proof.
  refine (proj1 (proj2 (declined_changes_nothing quiet_env marked_sample _ _ _))).
  - apply Exists_cons_hd. by left.
  - vm_compute. discriminate.
  - vm_compute. discriminate.
Defined.

(** ** One transaction step *)

Lemma steps_of_app tr1 tr2 : steps_of (tr1 ++ tr2) = steps_of tr1 ++ steps_of tr2.
Proof. unfold steps_of. apply omap_app. Qed.

Lemma alter_alter_item i (l : list PackageListItem) item b :
  l !! i = Some item →
  alter (set_action NONE) i (alter (set_installed b) i l)
  = <[i := mkItem (package item) b NONE]> l.
Proof.
  intros Hl. apply list_eq. intros j. destruct (decide (i = j)) as [<-|Hne].
  - rewrite !list_lookup_alter_eq, Hl.
    rewrite list_lookup_insert_eq by (by eapply lookup_lt_Some). done.
  - rewrite !list_lookup_alter_ne, list_lookup_insert_ne by done. done.
Qed.

(** What [install_package] does to the object at position [i]. *)
Lemma install_package_spec env i st item :
  packages st !! i = Some item →
  let pkg := package item in
  let r := install_package env i st in
  r.1 = Ok tt ∧
  current_index r.2 = current_index st ∧
  scroll_offset r.2 = scroll_offset st ∧
  package_cache r.2 = package_cache st ∧
  show_help r.2 = show_help st ∧
  steps_of (trace r.2) = steps_of (trace st) ++ [StepInstall (name pkg)] ∧
  match install_failure env (db st) pkg with
  | Some cause =>
      packages r.2 = packages st ∧
      status_message r.2
        = "Error installing " +:+ name pkg +:+ ": " +:+ cause
  | None =>
      packages r.2 = <[i := mkItem pkg true NONE]> (packages st) ∧
      db r.2 = <[name pkg := pkg]> (db st) ∧
      status_message r.2 = "Successfully installed " +:+ name pkg
  end.
Proof.
  intros Hl pkg r. subst r pkg.
  unfold install_package, install_failure, mbind, M_bind, get_self.
  rewrite Hl. unfold_monad. cbn.
  destruct (download_package env (package item)) eqn:Hd; cbn.
  { rewrite !steps_of_app. cbn. rewrite app_nil_r. done. }
  destruct (extractall env (package item)) eqn:He; cbn.
  { rewrite !steps_of_app. cbn. rewrite !app_nil_r. done. }
  destruct (save env _) eqn:Hs; cbn.
  { rewrite !steps_of_app. cbn. rewrite !app_nil_r. done. }
  rewrite !steps_of_app. cbn. rewrite !app_nil_r.
  rewrite (alter_alter_item _ _ item) by done. done.
Qed.

(** What [remove_package] does to the object at position [i]. *)
Lemma remove_package_spec env i st item :
  packages st !! i = Some item →
  let pkg := package item in
  let r := remove_package env i st in
  r.1 = Ok tt ∧
  current_index r.2 = current_index st ∧
  scroll_offset r.2 = scroll_offset st ∧
  package_cache r.2 = package_cache st ∧
  show_help r.2 = show_help st ∧
  steps_of (trace r.2) = steps_of (trace st) ++ [StepRemove (name pkg)] ∧
  match remove_failure env (db st) pkg with
  | Some cause =>
      packages r.2 = packages st ∧
      status_message r.2
        = "Error removing " +:+ name pkg +:+ ": " +:+ cause
  | None =>
      packages r.2 = <[i := mkItem pkg false NONE]> (packages st) ∧
      db r.2 = delete (name pkg) (db st) ∧
      status_message r.2 = "Successfully removed " +:+ name pkg
  end.
Proof.
  intros Hl pkg r. subst r pkg.
  unfold remove_package, remove_failure, mbind, M_bind, get_self.
  rewrite Hl. unfold_monad. cbn.
  destruct (rmtree env (package item)) eqn:Hd; cbn.
  { rewrite !steps_of_app. cbn. rewrite app_nil_r. done. }
  destruct (is_installed (db st) (name (package item))) eqn:Hin; cbn.
  - destruct (save env _) eqn:Hs; cbn.
    { rewrite !steps_of_app. cbn. rewrite !app_nil_r. done. }
    rewrite !steps_of_app. cbn. rewrite !app_nil_r.
    rewrite (alter_alter_item _ _ item) by done. done.
  - rewrite !steps_of_app. cbn. rewrite !app_nil_r.
    rewrite (alter_alter_item _ _ item) by done.
    repeat split; try done.
    symmetry. apply delete_id.
    unfold is_installed in Hin. apply bool_decide_eq_false in Hin.
    by apply eq_None_not_Some.
Qed.

(** A reference that points nowhere: the step is empty. *)
Lemma install_package_none env i st :
  packages st !! i = None → install_package env i st = (Ok tt, st).
Proof.
  intros Hl. unfold install_package, mbind, M_bind, get_self. by rewrite Hl.
Qed.

Lemma remove_package_none env i st :
  packages st !! i = None → remove_package env i st = (Ok tt, st).
Proof.
  intros Hl. unfold remove_package, mbind, M_bind, get_self. by rewrite Hl.
Qed.

(** ** The entry invariant and what a batch leaves alone *)

Lemma step_frame_refl st : step_frame st st.
Proof. by repeat split. Qed.

Lemma step_frame_trans st1 st2 st3 :
  step_frame st1 st2 → step_frame st2 st3 → step_frame st1 st3.
Proof.
  intros (?&?&?&?&?&?) (?&?&?&?&?&?).
  repeat split; try congruence; auto.
Qed.

Lemma fmap_package_insert (l : list PackageListItem) i item b a :
  l !! i = Some item →
  package <$> <[i := mkItem (package item) b a]> l = package <$> l.
Proof.
  intros Hl. rewrite list_fmap_insert. apply list_insert_id.
  by rewrite list_lookup_fmap, Hl.
Qed.

Lemma install_step_frame env i st :
  let r := install_package env i st in
  r.1 = Ok tt ∧ step_frame st r.2 ∧
  steps_of (trace r.2)
  = steps_of (trace st)
    ++ option_list ((λ it, StepInstall (name (package it))) <$> packages st !! i).
Proof.
  destruct (packages st !! i) as [item|] eqn:Hl.
  - destruct (install_package_spec env i st item Hl)
      as (Hok & Hci & Hso & Hpc & Hsh & Htr & Hres).
    cbn zeta in *. split; [done|]. split; [|done].
    unfold step_frame, catalog_ok.
    destruct (install_failure env (db st) (package item)).
    + destruct Hres as [-> _]. by repeat split.
    + destruct Hres as (-> & _ & _). repeat split; try done.
      * by apply fmap_package_insert.
      * intros Hall. apply Forall_insert; [done|]. by split; [|intros []].
  - cbn zeta. rewrite install_package_none by done. cbn.
    rewrite app_nil_r. auto using step_frame_refl.
Qed.

Lemma remove_step_frame env i st :
  let r := remove_package env i st in
  r.1 = Ok tt ∧ step_frame st r.2 ∧
  steps_of (trace r.2)
  = steps_of (trace st)
    ++ option_list ((λ it, StepRemove (name (package it))) <$> packages st !! i).
Proof.
  destruct (packages st !! i) as [item|] eqn:Hl.
  - destruct (remove_package_spec env i st item Hl)
      as (Hok & Hci & Hso & Hpc & Hsh & Htr & Hres).
    cbn zeta in *. split; [done|]. split; [|done].
    unfold step_frame, catalog_ok.
    destruct (remove_failure env (db st) (package item)).
    + destruct Hres as [-> _]. by repeat split.
    + destruct Hres as (-> & _ & _). repeat split; try done.
      * by apply fmap_package_insert.
      * intros Hall. apply Forall_insert; [done|]. by split; [|intros []].
  - cbn zeta. rewrite remove_package_none by done. cbn.
    rewrite app_nil_r. auto using step_frame_refl.
Qed.

(** ** The two loops of a batch *)

Lemma for_each_cons {X} (x : X) xs body st :
  for_each (x :: xs) body st
  = match body x st with
    | (Ok _, st') => for_each xs body st'
    | (Raise e, st') => (Raise e, st')
    end.
Proof. reflexivity. Qed.

Section loops.
Context (body : nat → M unit) (mk : string → step).
Hypothesis body_frame : ∀ i st,
  let r := body i st in
  r.1 = Ok tt ∧ step_frame st r.2 ∧
  steps_of (trace r.2)
  = steps_of (trace st)
    ++ option_list ((λ it, mk (name (package it))) <$> packages st !! i).

Lemma loop_frame refs st :
  let r := for_each refs body st in
  r.1 = Ok tt ∧ step_frame st r.2 ∧
  steps_of (trace r.2)
  = steps_of (trace st)
    ++ omap (λ i, mk ∘ name <$> (package <$> packages st) !! i) refs.
Proof.
  revert st. induction refs as [|i refs IH]; intros st; cbn zeta.
  - cbn. rewrite app_nil_r. auto using step_frame_refl.
  - rewrite for_each_cons.
    destruct (body_frame i st) as (Hok & Hfr & Htr). cbn zeta in *.
    destruct (body i st) as [[[]|e] st1]; cbn in Hok, Hfr, Htr; [|done].
    destruct (IH st1) as (Hok' & Hfr' & Htr'). cbn zeta in *.
    split; [done|]. split; [by eapply step_frame_trans|].
    rewrite Htr', Htr. destruct Hfr as (_ & _ & _ & _ & -> & _).
    rewrite <- app_assoc. f_equal. cbn.
    rewrite list_lookup_fmap.
    destruct (packages st !! i); reflexivity.
Qed.
End loops.

Lemma install_loop_frame env refs st :
  let r := for_each refs (install_package env) st in
  r.1 = Ok tt ∧ step_frame st r.2 ∧
  steps_of (trace r.2)
  = steps_of (trace st)
    ++ omap (λ i, StepInstall ∘ name <$> (package <$> packages st) !! i) refs.
Proof. apply loop_frame, install_step_frame. Qed.

Lemma remove_loop_frame env refs st :
  let r := for_each refs (remove_package env) st in
  r.1 = Ok tt ∧ step_frame st r.2 ∧
  steps_of (trace r.2)
  = steps_of (trace st)
    ++ omap (λ i, StepRemove ∘ name <$> (package <$> packages st) !! i) refs.
Proof. apply loop_frame, remove_step_frame. Qed.

(** The references in [marked a l] name, in order, the entries of [l]
    whose action is [a]. *)
Lemma marked_from_lookup {B} (f : Package → B) a pre l :
  omap (λ i, f <$> (package <$> pre ++ l) !! i) (marked_from a (length pre) l)
  = (f ∘ package) <$> filter (λ it, action it = a) l.
Proof.
  revert pre. induction l as [|it l IH]; intros pre; [done|].
  cbn [marked_from]. rewrite filter_cons.
  specialize (IH (pre ++ [it])).
  rewrite length_app, Nat.add_1_r, <- app_assoc in IH. cbn [app] in IH.
  destruct (decide (action it = a)); [|done].
  cbn [omap list_omap]. rewrite list_lookup_fmap.
  rewrite list_lookup_middle by done. cbn. by rewrite IH.
Qed.

Lemma marked_lookup {B} (f : Package → B) a l :
  omap (λ i, f <$> (package <$> l) !! i) (marked a l)
  = (f ∘ package) <$> filter (λ it, action it = a) l.
Proof. apply (marked_from_lookup f a []). Qed.

(** ** Sorting by name *)

Lemma str_le_neq_lt a b : String.le a b → a ≠ b → str_lt a b.
Proof.
  unfold String.le, String.leb, str_lt. intros Hle Hne.
  destruct (a ?= b)%string eqn:Hc; [|done|done].
  by apply String.compare_eq_iff in Hc.
Qed.

Lemma str_lt_le a b : str_lt a b → String.le a b.
Proof. unfold String.le, String.leb, str_lt. by intros ->. Qed.

Lemma str_lt_irrefl a : ¬ str_lt a a.
Proof.
  unfold str_lt. intros H.
  pose proof (String.compare_antisym a a) as Ha. rewrite H in Ha. done.
Qed.

Lemma insert_by_name_perm x l : insert_by_name x l ≡ₚ x :: l.
Proof.
  induction l as [|y l IH]; cbn; [done|].
  destruct (String.leb _ _); [done|]. rewrite IH. apply Permutation_swap.
Qed.

Lemma sort_by_name_perm l : sort_by_name l ≡ₚ l.
Proof.
  induction l as [|x l IH]; cbn; [done|].
  rewrite insert_by_name_perm. by rewrite IH.
Qed.

Lemma insert_by_name_hd y x l :
  item_le y x → HdRel item_le y l → HdRel item_le y (insert_by_name x l).
Proof.
  intros Hyx Hhd. destruct l as [|z l]; cbn; [by constructor|].
  destruct (String.leb _ _); constructor; [done|]. by inversion Hhd.
Qed.

Lemma insert_by_name_sorted x l :
  Sorted item_le l → Sorted item_le (insert_by_name x l).
Proof.
  induction l as [|y l IH]; intros Hs; cbn.
  - by repeat constructor.
  - destruct (String.leb (name (package x)) (name (package y))) eqn:Hxy.
    + constructor; [done|]. constructor. unfold item_le, String.le.
      by rewrite Hxy.
    + apply Sorted_inv in Hs as [Hs Hhd].
      constructor; [by apply IH|].
      apply insert_by_name_hd; [|done].
      unfold item_le. destruct (total String.le (name (package y))
                                  (name (package x))) as [H|H]; [done|].
      unfold String.le in H. by rewrite Hxy in H.
Qed.

Lemma sort_by_name_sorted l : Sorted item_le (sort_by_name l).
Proof.
  induction l as [|x l IH]; cbn; [constructor|].
  by apply insert_by_name_sorted.
Qed.

Lemma item_le_trans x y z : item_le x y → item_le y z → item_le x z.
Proof. unfold item_le. apply transitivity. Qed.

(** A list of items sorted by [<=] on names that are pairwise distinct is
    sorted by [<]. *)
Lemma sorted_names_strict l :
  Sorted item_le l →
  NoDup ((name ∘ package) <$> l) →
  StronglySorted str_lt ((name ∘ package) <$> l).
Proof.
  intros Hs. apply Sorted_StronglySorted in Hs;
    [|intros x y z; apply item_le_trans].
  induction Hs as [|x l Hs IH Hall]; intros Hnd; cbn; [constructor|].
  apply NoDup_cons in Hnd as [Hx Hnd].
  constructor; [by apply IH|].
  apply Forall_fmap, Forall_forall. intros y Hy. cbn.
  apply str_le_neq_lt.
  - rewrite Forall_forall in Hall. by apply Hall.
  - intros Heq. apply Hx.
    replace ((name ∘ package) x) with ((name ∘ package) y) by (by cbn).
    apply (list_elem_of_fmap_2 (name ∘ package)), Hy.
Qed.

(** ** The repository cache *)

Lemma dict_get_set k v d k' :
  Dict.get k' (Dict.set k v d) = if decide (k = k') then Some v else Dict.get k' d.
Proof.
  induction d as [|[k0 v0] d IH]; cbn.
  - destruct (String.eqb_spec k k'); by case_decide.
  - destruct (String.eqb_spec k0 k) as [->|Hk0]; cbn.
    + destruct (String.eqb_spec k k'); by case_decide.
    + destruct (String.eqb_spec k0 k') as [->|Hk0']; [|done].
      by case_decide.
Qed.

Lemma dict_keys_set k v d k' :
  k' ∈ Dict.keys (Dict.set k v d) ↔ k' = k ∨ k' ∈ Dict.keys d.
Proof.
  unfold Dict.keys. induction d as [|[k0 v0] d IH]; cbn.
  - rewrite list_elem_of_singleton, elem_of_nil. tauto.
  - destruct (String.eqb_spec k0 k) as [->|Hk0]; cbn.
    + rewrite !elem_of_cons. tauto.
    + rewrite !elem_of_cons, IH. tauto.
Qed.

Lemma dict_keys_get k d : k ∈ Dict.keys d ↔ is_Some (Dict.get k d).
Proof.
  unfold Dict.keys. induction d as [|[k0 v0] d IH]; cbn.
  - rewrite elem_of_nil. split; [done|]. intros [? ?]. done.
  - rewrite elem_of_cons, IH.
    destruct (String.eqb_spec k0 k) as [->|Hk0].
    + split; [by eexists | by left].
    + split; [|by right]. intros [?|?]; [congruence|done].
Qed.

Lemma dict_get_elem_of k v d : Dict.get k d = Some v → (k, v) ∈ d.
Proof.
  induction d as [|[k0 v0] d IH]; cbn; [done|].
  destruct (String.eqb_spec k0 k) as [->|Hk0].
  - intros [= ->]. by left.
  - intros H. right. by apply IH.
Qed.

Lemma dict_elem_of_get k v d : NoDup (Dict.keys d) → (k, v) ∈ d → Dict.get k d = Some v.
Proof.
  unfold Dict.keys. induction d as [|[k0 v0] d IH]; cbn; intros Hnd Hin.
  - by apply elem_of_nil in Hin.
  - apply NoDup_cons in Hnd as [Hk0 Hnd].
    apply elem_of_cons in Hin as [[= -> ->]|Hin].
    + by rewrite String.eqb_refl.
    + destruct (String.eqb_spec k0 k) as [->|Hne]; [|by apply IH].
      exfalso. apply Hk0. apply (list_elem_of_fmap_2 fst) in Hin. done.
Qed.

Lemma dict_wf_set v d : Dict.wf d → Dict.wf (Dict.set (name v) v d).
Proof.
  unfold Dict.wf, Dict.keys. intros [Hnd Hall].
  induction d as [|[k0 v0] d IH]; cbn.
  - split; [apply NoDup_singleton | by repeat constructor].
  - apply NoDup_cons in Hnd as [Hk0 Hnd].
    apply Forall_cons in Hall as [Hv0 Hall]. cbn in Hv0.
    destruct (String.eqb_spec k0 (name v)) as [->|Hne]; cbn.
    + split; [by apply NoDup_cons | by constructor].
    + destruct (IH Hnd Hall) as [IH1 IH2].
      split; [|by constructor].
      apply NoDup_cons. split; [|done].
      intros Hin. apply (dict_keys_set (name v) v d k0) in Hin as [?|?]; done.
Qed.

Lemma fill_cache_wf index d : Dict.wf d → Dict.wf (fill_cache index d).
Proof.
  unfold fill_cache. revert d. induction index as [|i index IH]; intros d Hd; cbn.
  - done.
  - apply IH. by apply (dict_wf_set (package_of_info i)).
Qed.

Lemma fill_cache_keys index d k :
  k ∈ Dict.keys (fill_cache index d) ↔ k ∈ info_name <$> index ∨ k ∈ Dict.keys d.
Proof.
  unfold fill_cache. revert d. induction index as [|i index IH]; intros d; cbn.
  - rewrite elem_of_nil. tauto.
  - rewrite IH, dict_keys_set, elem_of_cons. tauto.
Qed.

Lemma fill_cache_get index d nm :
  Dict.get nm (fill_cache index d)
  = match last (filter (λ i, info_name i = nm) index) with
    | Some i => Some (package_of_info i)
    | None => Dict.get nm d
    end.
Proof.
  unfold fill_cache. revert d.
  induction index as [|i index IH]; intros d; cbn [foldl].
  - done.
  - rewrite IH, dict_get_set, filter_cons.
    destruct (decide (info_name i = nm)) as [Hi|Hi].
    + rewrite last_cons. by destruct (last _).
    + done.
Qed.

Lemma fallback_cache_wf : Dict.wf fallback_cache.
Proof.
  split; [apply NoDup_singleton | by repeat constructor].
Qed.

Lemma available_wf env cache : Dict.wf cache → Dict.wf (available env cache).
Proof.
  intros Hwf. unfold available. destruct cache; [|done].
  destruct (index_json env); [by apply fill_cache_wf | apply fallback_cache_wf].
Qed.

(** What [load_packages] computes. *)
Lemma load_packages_spec env st :
  let r := load_packages env st in
  r.1 = Ok tt ∧
  current_index r.2 = current_index st ∧
  scroll_offset r.2 = scroll_offset st ∧
  show_help r.2 = show_help st ∧
  db r.2 = db st ∧
  steps_of (trace r.2) = steps_of (trace st) ∧
  package_cache r.2 = available env (package_cache st) ∧
  packages r.2
  = sort_by_name
      ((λ kv : string * Package, new_item kv.2 (is_installed (db st) kv.1))
         <$> available env (package_cache st)).
Proof.
  unfold load_packages, fetch_package_list, available.
  unfold_monad. cbn.
  destruct (package_cache st) as [|kv cache] eqn:Hc; cbn.
  - destruct (index_json env); cbn; rewrite ?Hc, !steps_of_app; cbn;
      rewrite !app_nil_r; done.
  - rewrite Hc, !steps_of_app. cbn. rewrite !app_nil_r. done.
Qed.

(** ** The catalog built by [load_packages] *)

Lemma catalog_names_keys (d : gmap string Package) (avail : Dict.t) :
  Dict.wf avail →
  (name ∘ package) <$>
    ((λ kv : string * Package, new_item kv.2 (is_installed d kv.1)) <$> avail)
  = Dict.keys avail.
Proof.
  intros [_ Hall]. unfold Dict.keys. rewrite <- list_fmap_compose.
  apply Forall_fmap_ext_1. eapply Forall_impl; [exact Hall|]. by intros [k v].
Qed.

(** C3 (amended).  The catalog built by [load_packages] has exactly one
    entry for every name in the dictionary returned by the repository and
    no other entry (a name that is only in the ledger gets none); its names
    are strictly ascending, hence pairwise distinct; every entry carries
    the repository's record for its name, its installed flag says whether
    the ledger lists the name, and its action is [NONE].  When the cache
    was empty and the index was fetched, the names are those of the index
    and the record of a name is the last one the index gives for it. *)
Theorem catalog_from_source env st :
  Dict.wf (package_cache st) →
  let st' := exec (load_packages env) st in
  let avail := package_cache st' in
  let names := (name ∘ package) <$> packages st' in
  StronglySorted str_lt names ∧
  NoDup names ∧
  (∀ nm, nm ∈ names ↔ nm ∈ Dict.keys avail) ∧
  (∀ it, it ∈ packages st' →
     Dict.get (name (package it)) avail = Some (package it) ∧
     installed it = is_installed (db st) (name (package it)) ∧
     action it = NONE) ∧
  (∀ index, package_cache st = [] → index_json env = Some index →
     (∀ nm, nm ∈ names ↔ nm ∈ info_name <$> index) ∧
     (∀ nm, Dict.get nm avail
            = package_of_info <$> last (filter (λ i, info_name i = nm) index))).
Proof.
  intros Hwf st' avail names. subst st' avail names. unfold exec.
  destruct (load_packages_spec env st) as (_ & _ & _ & _ & _ & _ & Hpc & Hpk).
  cbn zeta in *. rewrite Hpc, Hpk. clear Hpc Hpk.
  pose proof (available_wf env _ Hwf) as Hav.
  set (avail := available env (package_cache st)) in *.
  set (items := (λ kv : string * Package,
                   new_item kv.2 (is_installed (db st) kv.1)) <$> avail).
  assert (Hperm : (name ∘ package) <$> sort_by_name items ≡ₚ Dict.keys avail).
  { rewrite sort_by_name_perm. subst items. by rewrite catalog_names_keys. }
  assert (Hnd : NoDup ((name ∘ package) <$> sort_by_name items)).
  { rewrite Hperm. apply Hav. }
  assert (Hmem : ∀ nm, nm ∈ (name ∘ package) <$> sort_by_name items
                       ↔ nm ∈ Dict.keys avail).
  { intros nm. by rewrite Hperm. }
  split; [apply sorted_names_strict; [apply sort_by_name_sorted | done]|].
  split; [done|]. split; [done|]. split.
  - intros it Hit. rewrite sort_by_name_perm in Hit. subst items.
    apply list_elem_of_fmap in Hit as ([k v] & -> & Hkv). cbn.
    destruct Hav as [Hnd' Hall]. rewrite Forall_forall in Hall.
    pose proof (Hall _ Hkv) as Hname. cbn in Hname. rewrite Hname.
    split; [by apply dict_elem_of_get | done].
  - intros index Hempty Hidx. subst avail. unfold available in *.
    rewrite Hempty, Hidx in *. split.
    + intros nm. rewrite Hmem, fill_cache_keys, elem_of_nil. tauto.
    + intros nm. rewrite fill_cache_get. by destruct (last _).
Qed.

Lemma catalog_from_source_witness :
  NoDup ((name ∘ package)
           <$> packages (exec (load_packages (index_env [sl_info]))
                              (init_tui ∅))).
Proof.
  refine (proj1 (proj2 (catalog_from_source (index_env [sl_info])
                          (init_tui ∅) _))).
  split; [apply NoDup_nil_2 | apply Forall_nil_2].
Defined.

(** C3 as stated fails: with [vim] in the ledger and only [sl] in the
    index, not every name of the two inputs has an entry in the catalog. *)
Lemma installed_only_name_missing :
  ¬ (∀ nm, nm ∈ info_name <$> [sl_info] ∨ is_installed vim_ledger nm = true →
           nm ∈ (name ∘ package)
                  <$> packages (new_tui (index_env [sl_info]) vim_ledger)).
Proof.
  intros Hall.
  assert (Hin : "vim" ∈ (name ∘ package)
                  <$> packages (new_tui (index_env [sl_info]) vim_ledger)).
  { apply Hall. right. by vm_compute. }
  vm_compute in Hin. apply list_elem_of_singleton in Hin. discriminate.
Qed.

(** ** A whole batch *)

Lemma load_packages_actions env st :
  Forall (λ it, action it = NONE) (packages (load_packages env st).2).
Proof.
  destruct (load_packages_spec env st) as (_ & _ & _ & _ & _ & _ & _ & ->).
  rewrite sort_by_name_perm. apply Forall_fmap, Forall_true. done.
Qed.

Lemma load_packages_catalog_ok env st : catalog_ok (load_packages env st).2.
Proof.
  eapply Forall_impl; [apply load_packages_actions|].
  intros it Hit. split; rewrite Hit; [done | by intros []].
Qed.

Lemma batch_steps_nil l :
  marked INSTALL l = [] → marked REMOVE l = [] → batch_steps l = [].
Proof.
  intros Hi Hr. unfold batch_steps.
  rewrite <- (marked_lookup (StepInstall ∘ name)), Hi.
  rewrite <- (marked_lookup (StepRemove ∘ name)), Hr. done.
Qed.

(** What [apply_changes] does as a whole. *)
Lemma apply_changes_spec env st :
  let r := apply_changes env st in
  r.1 = Ok tt ∧
  current_index r.2 = current_index st ∧
  scroll_offset r.2 = scroll_offset st ∧
  show_help r.2 = show_help st ∧
  (catalog_ok st → catalog_ok r.2) ∧
  (Dict.wf (package_cache st) → Dict.wf (package_cache r.2)) ∧
  steps_of (trace r.2)
  = steps_of (trace st) ++ (if confirmed env then batch_steps (packages st) else []).
Proof.
  cbn zeta. unfold apply_changes, mbind, M_bind, get_self.
  destruct (is_empty (marked INSTALL (packages st))
            && is_empty (marked REMOVE (packages st))) eqn:Hplan.
  { apply andb_true_iff in Hplan as [Hi%is_empty_true Hr%is_empty_true].
    rewrite (batch_steps_nil _ Hi Hr). cbn.
    destruct (confirmed env); rewrite app_nil_r; done. }
  unfold draw, read_key, emit, modify, mbind, M_bind, get_self, mret, M_ret.
  cbn [fst snd]. unfold confirmed.
  destruct (getch env =? ord "y") eqn:Hy; destruct (getch env =? ord "Y") eqn:HY;
    cbn [negb andb orb].
  4: { cbn. rewrite !steps_of_app. cbn. rewrite !app_nil_r. done. }
  all: match goal with
       | |- context [for_each (marked INSTALL _) _ ?s] => set (st1 := s)
       end;
    destruct (install_loop_frame env (marked INSTALL (packages st)) st1)
      as (Hok1 & Hfr1 & Htr1);
    cbn zeta in Hok1, Hfr1, Htr1;
    destruct (for_each (marked INSTALL (packages st)) (install_package env) st1)
      as [[[]|e1] st2]; cbn in Hok1, Hfr1, Htr1; [|done];
    destruct (remove_loop_frame env (marked REMOVE (packages st)) st2)
      as (Hok2 & Hfr2 & Htr2);
    cbn zeta in Hok2, Hfr2, Htr2;
    destruct (for_each (marked REMOVE (packages st)) (remove_package env) st2)
      as [[[]|e2] st3]; cbn in Hok2, Hfr2, Htr2; [|done];
    destruct (load_packages_spec env st3)
      as (Hok3 & Hci & Hso & Hsh & _ & Htr3 & Hpc3 & _);
    cbn zeta in Hok3, Hci, Hso, Hsh, Htr3, Hpc3;
    pose proof (load_packages_catalog_ok env st3) as Hcat;
    destruct (load_packages env st3) as [[[]|e3] st4];
      cbn in Hok3, Hci, Hso, Hsh, Htr3, Hpc3, Hcat |- *; [|done];
    destruct Hfr1 as (Hci1 & Hso1 & Hpc1 & Hsh1 & Hpk1 & _);
    destruct Hfr2 as (Hci2 & Hso2 & Hpc2 & Hsh2 & Hpk2 & _);
    (split; [done|]);
    (split; [by rewrite Hci, Hci2, Hci1|]);
    (split; [by rewrite Hso, Hso2, Hso1|]);
    (split; [by rewrite Hsh, Hsh2, Hsh1|]);
    (split; [done|]);
    (split; [rewrite Hpc3, Hpc2, Hpc1; apply available_wf|]);
    rewrite Htr3, Htr2, Htr1, Hpk1; subst st1; cbn [packages set_trace
      set_status_message trace];
    rewrite !steps_of_app; cbn [steps_of omap list_omap step_of_event];
    rewrite !app_nil_r, <- app_assoc; f_equal;
    unfold batch_steps;
    rewrite (marked_lookup (StepInstall ∘ name)),
            (marked_lookup (StepRemove ∘ name)); done.
Qed.

(** ** Failing steps *)

(** C1 as stated fails: after an install step whose download fails the
    entry is still marked [INSTALL]. *)
Lemma failed_install_stays_marked :
  install_failure failing_env (db marked_sample) sl = Some "connection refused" ∧
  action <$> packages (exec (install_package failing_env 0) marked_sample) !! 0%nat
  = Some INSTALL ∧
  action <$> packages (exec (install_package failing_env 0) marked_sample) !! 0%nat
  ≠ Some NONE.
Proof. by vm_compute. Qed.

(** C1 (amended).  A step that fails changes no entry: the installed flag
    and the pending action of the entry stay as they were (the action is
    not reset).  The status line becomes "Error installing <name>:
    <cause>", respectively "Error removing <name>: <cause>".  The step
    returns normally, so the loop goes on with the remaining references
    from the state the step left; and [apply_changes] as a whole never
    ends in an exception. *)
Theorem failed_step_keeps_entry env st i item cause rest :
  packages st !! i = Some item →
  (install_failure env (db st) (package item) = Some cause →
     let st' := exec (install_package env i) st in
     packages st' = packages st ∧
     status_message st'
       = "Error installing " +:+ name (package item) +:+ ": " +:+ cause ∧
     for_each (i :: rest) (install_package env) st
       = for_each rest (install_package env) st') ∧
  (remove_failure env (db st) (package item) = Some cause →
     let st' := exec (remove_package env i) st in
     packages st' = packages st ∧
     status_message st'
       = "Error removing " +:+ name (package item) +:+ ": " +:+ cause ∧
     for_each (i :: rest) (remove_package env) st
       = for_each rest (remove_package env) st') ∧
  (apply_changes env st).1 = Ok tt.
Proof.
  intros Hl. split; [|split].
  - intros Hfail. cbn zeta. unfold exec.
    destruct (install_package_spec env i st item Hl) as (Hok & _ & _ & _ & _ & _ & Hres).
    cbn zeta in Hok, Hres. rewrite Hfail in Hres. destruct Hres as [Hpk Hmsg].
    rewrite for_each_cons.
    destruct (install_package env i st) as [[[]|e] st1]; cbn in *; done.
  - intros Hfail. cbn zeta. unfold exec.
    destruct (remove_package_spec env i st item Hl) as (Hok & _ & _ & _ & _ & _ & Hres).
    cbn zeta in Hok, Hres. rewrite Hfail in Hres. destruct Hres as [Hpk Hmsg].
    rewrite for_each_cons.
    destruct (remove_package env i st) as [[[]|e] st1]; cbn in *; done.
  - apply apply_changes_spec.
Qed.

Lemma failed_step_keeps_entry_witness :
  packages (exec (install_package failing_env 0) marked_sample)
    = [mkItem sl false INSTALL] ∧
  status_message (exec (remove_package failing_env 0) installed_marked_sample)
    = "Error removing sl: permission denied".
Proof.
  split.
  - refine (proj1 (proj1 (failed_step_keeps_entry failing_env marked_sample 0
                            (mkItem sl false INSTALL) "connection refused" []
                            eq_refl) _)).
    reflexivity.
  - refine (proj1 (proj2 (proj1 (proj2 (failed_step_keeps_entry failing_env
                            installed_marked_sample 0 (mkItem sl true REMOVE)
                            "permission denied" [] eq_refl)) _))).
    reflexivity.
Defined.

(** ** Order of the steps *)

Lemma filter_strongly_sorted {A} (R : A → A → Prop) (P : A → Prop)
    `{∀ x, Decision (P x)} (l : list A) :
  StronglySorted R l → StronglySorted R (filter P l).
Proof.
  induction 1 as [|x l Hs IH Hall]; [constructor|].
  rewrite filter_cons. case_decide; [|done].
  constructor; [done|]. rewrite Forall_forall in Hall |- *.
  intros y Hy%list_elem_of_filter. apply Hall, Hy.
Qed.

(** C9.  Once the prompt is answered with [y] or [Y], the steps that
    [apply_changes] adds to the trace are the entries marked [INSTALL], in
    catalog order, followed by the entries marked [REMOVE], in catalog
    order: every marked entry is attempted once, whatever the outcome of
    the steps before it.  In a catalog sorted by name the names of each
    group are therefore ascending. *)
Theorem installs_before_removes env st :
  confirmed env = true →
  steps_of (trace (exec (apply_changes env) st))
  = steps_of (trace st)
    ++ ((StepInstall ∘ name ∘ package)
          <$> filter (λ it, action it = INSTALL) (packages st))
    ++ ((StepRemove ∘ name ∘ package)
          <$> filter (λ it, action it = REMOVE) (packages st)) ∧
  (StronglySorted (λ x y, str_lt (name (package x)) (name (package y)))
     (packages st) →
   ∀ a, StronglySorted (λ x y, str_lt (name (package x)) (name (package y)))
          (filter (λ it, action it = a) (packages st))).
Proof.
  intros Hc. split.
  - destruct (apply_changes_spec env st) as (_ & _ & _ & _ & _ & _ & Htr).
    cbn zeta in Htr. rewrite Hc in Htr. exact Htr.
  - intros Hs a. by apply filter_strongly_sorted.
Qed.

Lemma installs_before_removes_witness :
  steps_of (trace (exec (apply_changes failing_env) two_marked_sample))
  = [StepInstall "sl"; StepRemove "vim"].
Proof.
  exact (proj1 (installs_before_removes failing_env two_marked_sample eq_refl)).
Defined.

(** ** Searching *)

(** What [search_packages] does. *)
Lemma search_packages_spec env st :
  let q := getstr env in
  let r := search_packages env st in
  r.1 = Ok tt ∧
  packages r.2 = packages st ∧
  show_help r.2 = show_help st ∧
  steps_of (trace r.2) = steps_of (trace st) ∧
  (q = "" →
   current_index r.2 = current_index st ∧
   scroll_offset r.2 = scroll_offset st ∧
   status_message r.2 = "Search cancelled") ∧
  (q ≠ "" →
   match list_find (λ it, matches q it = true) (packages st) with
   | Some (i, item) =>
       current_index r.2 = Z.of_nat i ∧
       scroll_offset r.2 = Z.max 0 (Z.of_nat i - 5) ∧
       status_message r.2 = "Found: " +:+ name (package item)
   | None =>
       current_index r.2 = current_index st ∧
       scroll_offset r.2 = scroll_offset st ∧
       status_message r.2 = "No packages matching '" +:+ q +:+ "'"
   end).
Proof.
  cbn zeta. unfold search_packages. unfold_monad.
  case_bool_decide as Hq; cbn.
  - destruct (list_find _ (packages st)) as [[i item]|]; cbn;
      rewrite !steps_of_app; cbn; rewrite app_nil_r; done.
  - rewrite !steps_of_app; cbn; rewrite app_nil_r.
    repeat split; done.
Qed.

(** ** Every command keeps the entry invariant *)

Lemma mark_for_install_catalog_ok st : catalog_ok st → catalog_ok (mark_for_install st).
Proof.
  unfold mark_for_install, catalog_ok. intros Hok.
  destruct (current_item st) as [[i item]|] eqn:Hc; [|done].
  apply current_item_inv in Hc as [_ Hl].
  destruct (installed item) eqn:Hinst; cbn; [done|].
  apply Forall_alter; [done|]. intros x Hx _. rewrite Hl in Hx.
  injection Hx as <-. split; cbn; [done | by intros []].
Qed.

Lemma mark_for_remove_catalog_ok st : catalog_ok st → catalog_ok (mark_for_remove st).
Proof.
  unfold mark_for_remove, catalog_ok. intros Hok.
  destruct (current_item st) as [[i item]|] eqn:Hc; [|done].
  apply current_item_inv in Hc as [_ Hl].
  destruct (installed item) eqn:Hinst; cbn; [|done].
  apply Forall_alter; [done|]. intros x Hx _. rewrite Hl in Hx.
  injection Hx as <-. split; cbn; [done | by intros _].
Qed.

Lemma key_up_packages st : packages (key_up st) = packages st.
Proof. unfold key_up. by repeat case_match. Qed.
Lemma key_down_packages h st : packages (key_down h st) = packages st.
Proof. unfold key_down. by repeat case_match. Qed.
Lemma key_ppage_packages h st : packages (key_ppage h st) = packages st.
Proof. reflexivity. Qed.
Lemma key_npage_packages h st : packages (key_npage h st) = packages st.
Proof. reflexivity. Qed.
Lemma key_home_packages st : packages (key_home st) = packages st.
Proof. reflexivity. Qed.
Lemma key_end_packages h st : packages (key_end h st) = packages st.
Proof. reflexivity. Qed.

Lemma handle_input_catalog_ok env key st :
  catalog_ok st → catalog_ok (exec (handle_input env key) st).
Proof.
  intros Hok. unfold exec, handle_input, mbind, M_bind, get_self.
  destruct (show_help st); [done|].
  destruct (key =? ord "q"); [done|].
  repeat match goal with
         | |- context [if ?b then _ else _] => destruct b
         end;
    try (unfold modify, mret, M_ret; cbn; unfold catalog_ok;
         rewrite ?key_up_packages, ?key_down_packages; done).
  - unfold modify; cbn. by apply mark_for_install_catalog_ok.
  - unfold modify; cbn. by apply mark_for_remove_catalog_ok.
  - destruct (apply_changes_spec env st) as (Hr & _ & _ & _ & Hc & _).
    cbn zeta in *. destruct (apply_changes env st) as [[[]|e] st1]; [|done].
    cbn in *. by apply Hc.
  - pose proof (load_packages_catalog_ok env st) as Hc.
    destruct (load_packages_spec env st) as (Hr & _).
    cbn zeta in *. destruct (load_packages env st) as [[[]|e] st1]; [|done].
    done.
  - destruct (search_packages_spec env st) as (Hr & Hpk & _).
    cbn zeta in *. destruct (search_packages env st) as [[[]|e] st1]; [|done].
    cbn in *. unfold catalog_ok. by rewrite Hpk.
Qed.

(** C7.  Starting from a catalog in which every entry meets the entry
    invariant, every command leaves such a catalog: the two marking
    commands, each install or remove step on any reference (whether it
    succeeds or fails), a whole batch, and any key handled by
    [handle_input].  A marking that would break the invariant changes no
    entry and only sets the status line. *)
Theorem entry_invariant_preserved env key st :
  catalog_ok st →
  catalog_ok (mark_for_install st) ∧
  catalog_ok (mark_for_remove st) ∧
  (∀ i, catalog_ok (exec (install_package env i) st)) ∧
  (∀ i, catalog_ok (exec (remove_package env i) st)) ∧
  catalog_ok (exec (apply_changes env) st) ∧
  catalog_ok (exec (handle_input env key) st) ∧
  (∀ i item, current_item st = Some (i, item) →
     (installed item = true →
        mark_for_install st
        = set_status_message (name (package item) +:+ " is already installed") st) ∧
     (installed item = false →
        mark_for_remove st
        = set_status_message (name (package item) +:+ " is not installed") st)).
Proof.
  intros Hok.
  split; [by apply mark_for_install_catalog_ok|].
  split; [by apply mark_for_remove_catalog_ok|].
  split; [intros i; by apply install_step_frame|].
  split; [intros i; by apply remove_step_frame|].
  split; [by apply apply_changes_spec|].
  split; [by apply handle_input_catalog_ok|].
  intros i item Hc. unfold mark_for_install, mark_for_remove. rewrite Hc.
  split; intros ->; done.
Qed.

Lemma entry_invariant_preserved_witness :
  catalog_ok (exec (handle_input failing_env (ord "g")) two_marked_sample).
Proof.
  refine (proj1 (proj2 (proj2 (proj2 (proj2 (proj2
            (entry_invariant_preserved failing_env (ord "g")
               two_marked_sample _))))))).
  repeat constructor; cbn; try done; intros []; done.
Defined.

(** ** Rebuilding the catalog and the cursor *)

(** C10.  [load_packages] and [apply_changes] leave [current_index] and
    [scroll_offset] exactly as they were, whatever the length of the
    rebuilt catalog.  So the selection can point past the end of the list:
    a session started on an empty index has [current_index = 0] over an
    empty catalog, and refreshing with [u] keeps it there. *)
Theorem rebuild_keeps_cursor :
  (∀ env st,
     current_index (exec (load_packages env) st) = current_index st ∧
     scroll_offset (exec (load_packages env) st) = scroll_offset st) ∧
  (∀ env st,
     current_index (exec (apply_changes env) st) = current_index st ∧
     scroll_offset (exec (apply_changes env) st) = scroll_offset st) ∧
  (∃ env ledger,
     let st := new_tui env ledger in
     let st' := exec (handle_input env (ord "u")) st in
     current_index st' = current_index st ∧
     0 <= current_index st' ∧
     len_packages st' < current_index st' + 1).
Proof.
  split; [|split].
  - intros env st. destruct (load_packages_spec env st) as (_ & ? & ? & _). done.
  - intros env st. destruct (apply_changes_spec env st) as (_ & ? & ? & _). done.
  - exists empty_index_env, ∅. by vm_compute.
Qed.

(** ** What a match is *)

Lemma string_app_cons a s t : String a s +:+ t = String a (s +:+ t).
Proof. reflexivity. Qed.

Lemma prefix_spec s1 s2 :
  String.prefix s1 s2 = true ↔ ∃ post, s2 = s1 +:+ post.
Proof.
  revert s2. induction s1 as [|a s1 IH]; intros s2.
  - destruct s2; cbn; (split; [intros _; by eexists | done]).
  - destruct s2 as [|b s2]; cbn.
    + split; [done|]. intros [post Hp]. rewrite string_app_cons in Hp. done.
    + destruct (ascii_dec a b) as [->|Hne].
      * rewrite IH. split; intros [post Hp]; exists post.
        -- rewrite string_app_cons. by f_equal.
        -- rewrite string_app_cons in Hp. by injection Hp.
      * split; [done|]. intros [post Hp]. rewrite string_app_cons in Hp.
        injection Hp as -> _. done.
Qed.

(** [contains needle hay] holds exactly when [hay] splits around [needle]. *)
Lemma contains_spec needle hay :
  contains needle hay = true ↔ ∃ pre post, hay = pre +:+ needle +:+ post.
Proof.
  induction hay as [|c hay IH].
  - cbn [contains]. rewrite orb_false_r, prefix_spec. split.
    + intros [post Hp]. by exists "", post.
    + intros ([|c pre] & post & Hp); [by exists post|].
      rewrite string_app_cons in Hp. done.
  - cbn [contains]. rewrite orb_true_iff, prefix_spec, IH. split.
    + intros [[post Hp]|(pre & post & Hp)].
      * by exists "", post.
      * exists (String c pre), post. rewrite string_app_cons. by f_equal.
    + intros ([|c' pre] & post & Hp).
      * left. by exists post.
      * right. rewrite string_app_cons in Hp. injection Hp as -> ->.
        by exists pre, post.
Qed.

Lemma lower_ascii_idemp c : lower_ascii (lower_ascii c) = lower_ascii c.
Proof.
  unfold lower_ascii.
  destruct ((65 <=? N_of_ascii c)%N && (N_of_ascii c <=? 90)%N) eqn:Hc.
  - apply andb_true_iff in Hc as [H1%N.leb_le H2%N.leb_le].
    rewrite N_ascii_embedding by lia.
    replace ((65 <=? N_of_ascii c + 32)%N && (N_of_ascii c + 32 <=? 90)%N)
      with false; [done|].
    symmetry. apply andb_false_iff. right. apply N.leb_gt. lia.
  - by rewrite Hc.
Qed.

Lemma lower_idemp s : lower (lower s) = lower s.
Proof. induction s as [|c s IH]; cbn; [done|]. by rewrite lower_ascii_idemp, IH. Qed.

Lemma matches_spec q it : matches q it = true ↔ entry_matches q it.
Proof.
  unfold matches, entry_matches, occurs_ci.
  by rewrite orb_true_iff, !contains_spec.
Qed.

Example lower_example : lower "Steam LOCOmotive" = "steam locomotive".
Proof. reflexivity. Qed.

(** C4 as stated fails: with [git] selected and [git-lfs] after it, a
    scan that starts after the selection finds [git-lfs] (position 1);
    [search_packages] lands on [git] (position 0) again. *)
Lemma search_restarts_from_top :
  findByQuery_spec (packages git_sample) "git" (current_index git_sample)
    = Some 1%nat ∧
  current_index (exec (search_packages (query_env "git")) git_sample) = 0 ∧
  status_message (exec (search_packages (query_env "git")) git_sample)
    = "Found: git".
Proof. by vm_compute. Qed.

(** C4 (amended).  On ASCII text (the query, and the name and the
    description of every entry), for a non-empty query [search_packages]
    looks at the entries from position 0 upwards, whatever the current
    selection, and an entry matches when the query occurs in its name or
    in its description, the case of the letters [A] to [Z] disregarded.
    The cursor moves to the first matching position; when no entry matches
    the cursor stays and the status says so.  An empty query searches
    nothing. *)
Theorem search_first_match_from_top env st :
  let q := getstr env in
  let st' := exec (search_packages env) st in
  ascii_only q = true →
  Forall (λ it, ascii_only (name (package it)) = true ∧
                ascii_only (description (package it)) = true) (packages st) →
  (q ≠ "" →
   ∀ i item,
     packages st !! i = Some item →
     entry_matches q item →
     (∀ j y, packages st !! j = Some y → (j < i)%nat → ¬ entry_matches q y) →
     current_index st' = Z.of_nat i ∧
     scroll_offset st' = Z.max 0 (Z.of_nat i - 5) ∧
     status_message st' = "Found: " +:+ name (package item)) ∧
  (q ≠ "" →
   (∀ item, item ∈ packages st → ¬ entry_matches q item) →
   current_index st' = current_index st ∧
   scroll_offset st' = scroll_offset st ∧
   status_message st' = "No packages matching '" +:+ q +:+ "'") ∧
  (q = "" →
   current_index st' = current_index st ∧
   scroll_offset st' = scroll_offset st ∧
   status_message st' = "Search cancelled").
Proof.
  cbn zeta. intros _ _. unfold exec.
  destruct (search_packages_spec env st) as (_ & _ & _ & _ & Hempty & Hq).
  cbn zeta in *. split; [|split].
  - intros Hne i item Hl Hm Hleast. specialize (Hq Hne).
    assert (Hfind : list_find (λ it, matches (getstr env) it = true) (packages st)
                    = Some (i, item)).
    { apply list_find_Some. split; [done|]. split; [by apply matches_spec|].
      intros j y Hj Hlt Hy. apply (Hleast j y Hj Hlt). by apply matches_spec. }
    by rewrite Hfind in Hq.
  - intros Hne Hnone. specialize (Hq Hne).
    assert (Hfind : list_find (λ it, matches (getstr env) it = true) (packages st)
                    = None).
    { apply list_find_None, Forall_forall. intros it Hit Hm.
      apply (Hnone it Hit). by apply matches_spec. }
    by rewrite Hfind in Hq.
  - done.
Qed.

Lemma search_first_match_from_top_witness :
  current_index (exec (search_packages (query_env "LFS")) git_sample) = 1.
Proof.
  refine (proj1 (proj1 (search_first_match_from_top (query_env "LFS") git_sample
                          _ _)
                   _ 1%nat (new_item git_lfs false) eq_refl _ _)).
  - reflexivity.
  - repeat constructor.
  - discriminate.
  - apply matches_spec. reflexivity.
  - intros j y Hj Hlt. assert (j = 0%nat) as -> by lia.
    injection Hj as <-. rewrite <- matches_spec. by vm_compute.
Defined.

(** ** The cursor *)

Lemma do_cmd_unfold h st c :
  do_cmd h st c
  = if show_help st then set_show_help false st
    else match c with
         | MoveUp => key_up st
         | MoveDown => key_down h st
         | PageUp => key_ppage h st
         | PageDown => key_npage h st
         | Home => key_home st
         | End => key_end h st
         | Search q => exec (search_packages (cmd_env h c)) st
         end.
Proof.
  unfold do_cmd, exec, handle_input, mbind, M_bind, get_self.
  destruct (show_help st); [done|].
  cbn [getmaxyx cmd_env fst]. rewrite Z.add_simpl_r.
  destruct c; unfold cmd_key;
    repeat match goal with
           | |- context [if ?b then _ else _] =>
               let v := eval vm_compute in b in change b with v; cbv beta iota
           end;
    try done.
  by destruct (search_packages _ st) as [[[]|e] st1].
Qed.

Lemma do_cmd_packages h st c : packages (do_cmd h st c) = packages st.
Proof.
  rewrite do_cmd_unfold. destruct (show_help st); [done|].
  destruct c; try (cursor_step; done).
  apply search_packages_spec.
Qed.

(** What a search does to the cursor: nothing, or a jump to a position
    [i] of the list with the offset set to [max 0 (i - 5)]. *)
Lemma search_jump env st :
  let st' := exec (search_packages env) st in
  (current_index st' = current_index st ∧ scroll_offset st' = scroll_offset st) ∨
  (∃ i : nat, (i < length (packages st))%nat ∧
              current_index st' = Z.of_nat i ∧
              scroll_offset st' = Z.max 0 (Z.of_nat i - 5)).
Proof.
  cbn zeta. unfold exec.
  destruct (search_packages_spec env st) as (_ & _ & _ & _ & Hempty & Hq).
  cbn zeta in *. destruct (decide (getstr env = "")) as [He|Hne].
  - left. by destruct (Hempty He) as (? & ? & _).
  - specialize (Hq Hne).
    destruct (list_find _ (packages st)) as [[i item]|] eqn:Hf.
    + right. exists i. apply list_find_Some in Hf as (Hl%lookup_lt_Some & _).
      by destruct Hq as (? & ? & _).
    + left. by destruct Hq as (? & ? & _).
Qed.

Lemma do_cmd_index_ok h st c : 0 <= h → index_ok st → index_ok (do_cmd h st c).
Proof.
  intros Hh Hok. rewrite do_cmd_unfold. destruct (show_help st); [done|].
  destruct c; try (cursor_step; done).
  pose proof (search_packages_spec (cmd_env h (Search query)) st) as (_ & Hpk & _).
  destruct (search_jump (cmd_env h (Search query)) st) as [[Hi _]|(i & Hlt & Hi & _)];
    cbn zeta in *; unfold index_ok, len_packages, exec in *;
    rewrite Hpk, Hi; lia.
Qed.

Lemma do_cmd_scroll_loose h st c :
  0 <= h → (h <= len_packages st ∨ c ≠ PageDown) →
  index_ok st → scroll_loose h st → scroll_loose h (do_cmd h st c).
Proof.
  intros Hh Hpd Hidx Hok. rewrite do_cmd_unfold. destruct (show_help st); [done|].
  destruct c; try (cursor_step; done).
  - destruct Hpd as [Hpd|Hpd]; [|done]. cursor_step.
  - pose proof (search_packages_spec (cmd_env h (Search query)) st) as (_ & Hpk & _).
    destruct (search_jump (cmd_env h (Search query)) st)
      as [[_ Hs]|(i & Hlt & _ & Hs)];
      cbn zeta in *; unfold scroll_loose, len_packages, exec in *;
      rewrite Hpk, Hs; lia.
Qed.

Lemma do_cmd_scroll_ok h st c :
  0 <= h → (h <= len_packages st ∨ c ≠ PageDown) → (∀ q, c ≠ Search q) →
  index_ok st → scroll_ok h st → scroll_ok h (do_cmd h st c).
Proof.
  intros Hh Hpd Hsr Hidx Hok. rewrite do_cmd_unfold.
  destruct (show_help st); [done|].
  destruct c; try (cursor_step; done).
  - destruct Hpd as [Hpd|Hpd]; [|done]. cursor_step.
  - by destruct (Hsr query).
Qed.

Lemma do_cmds_snoc h cs c st : do_cmds h (cs ++ [c]) st = do_cmd h (do_cmds h cs st) c.
Proof. unfold do_cmds. by rewrite foldl_app. Qed.

Lemma do_cmds_packages h cs st : packages (do_cmds h cs st) = packages st.
Proof.
  induction cs as [|c cs IH] using rev_ind; [done|].
  by rewrite do_cmds_snoc, do_cmd_packages.
Qed.

Lemma do_cmds_len h cs st : len_packages (do_cmds h cs st) = len_packages st.
Proof. unfold len_packages. by rewrite do_cmds_packages. Qed.

Lemma do_cmds_index_ok h cs st :
  0 <= h → index_ok st → index_ok (do_cmds h cs st).
Proof.
  intros Hh Hok. induction cs as [|c cs IH] using rev_ind; [done|].
  rewrite do_cmds_snoc. by apply do_cmd_index_ok.
Qed.

Lemma do_cmds_scroll_loose h cs st :
  0 <= h → (h <= len_packages st ∨ PageDown ∉ cs) →
  index_ok st → scroll_loose h st → scroll_loose h (do_cmds h cs st).
Proof.
  intros Hh Hpd Hidx Hok. induction cs as [|c cs IH] using rev_ind; [done|].
  rewrite do_cmds_snoc. apply do_cmd_scroll_loose; try done.
  - rewrite do_cmds_len. destruct Hpd as [?|Hpd]; [by left|right].
    intros ->. apply Hpd, elem_of_app. right. by left.
  - by apply do_cmds_index_ok.
  - apply IH. destruct Hpd as [?|Hpd]; [by left|right].
    intros Hin. apply Hpd, elem_of_app. by left.
Qed.

Lemma do_cmds_scroll_ok h cs st :
  0 <= h → (h <= len_packages st ∨ PageDown ∉ cs) → (∀ q, Search q ∉ cs) →
  index_ok st → scroll_ok h st → scroll_ok h (do_cmds h cs st).
Proof.
  intros Hh Hpd Hsr Hidx Hok. induction cs as [|c cs IH] using rev_ind; [done|].
  rewrite do_cmds_snoc. apply do_cmd_scroll_ok; try done.
  - rewrite do_cmds_len. destruct Hpd as [?|Hpd]; [by left|right].
    intros ->. apply Hpd, elem_of_app. right. by left.
  - intros q ->. apply (Hsr q), elem_of_app. right. by left.
  - by apply do_cmds_index_ok.
  - apply IH.
    + destruct Hpd as [?|Hpd]; [by left|right].
      intros Hin. apply Hpd, elem_of_app. by left.
    + intros q Hin. apply (Hsr q), elem_of_app. by left.
Qed.

(** C2 as stated fails: in a list of 7 entries shown in 19 rows, a search
    that finds the last entry sets the offset to 1, above the bound
    [max 0 (7 - 19) = 0]. *)
Lemma search_scrolls_past_bound :
  cursor_ok 19 seven_sample ∧
  ¬ cursor_ok 19 (do_cmd 19 seven_sample (Search "pkg6")).
Proof.
  assert (Hlen : len_packages seven_sample = 7) by (by vm_compute).
  assert (Hci : current_index seven_sample = 0) by (by vm_compute).
  assert (Hso : scroll_offset seven_sample = 0) by (by vm_compute).
  assert (Hlen' : len_packages (do_cmd 19 seven_sample (Search "pkg6")) = 7)
    by (by vm_compute).
  assert (Hs : scroll_offset (do_cmd 19 seven_sample (Search "pkg6")) = 1)
    by (by vm_compute).
  split.
  - unfold cursor_ok. rewrite Hlen, Hci, Hso. lia.
  - unfold cursor_ok. rewrite Hlen', Hs. lia.
Qed.

(** The same bound is left from below by [PageDown] on a list shorter
    than the screen: one entry, 19 rows. *)
Example page_down_short_list :
  scroll_offset (do_cmd 19 (new_tui quiet_env ∅) PageDown) = -18.
Proof. by vm_compute. Qed.

(** C2 (amended).  Over any sequence of cursor commands, with a list
    height of at least 0, the list is not changed and the selection stays
    a position of the list ([-1] or [0] when the list is empty).  The
    scroll offset stays within [0 .. max 0 (length - list_height)] as long
    as no search is among the commands, and within the wider
    [0 .. max 0 (length - list_height) (length - 6)] with searches (a
    search that finds position [i] sets the offset to [max 0 (i - 5)]);
    both under the proviso that [PageDown] is only used when the list is
    at least as long as the screen. *)
Theorem cursor_bounds h cs st :
  0 <= h →
  index_ok st →
  let st' := do_cmds h cs st in
  let n := len_packages st in
  len_packages st' = n ∧
  (0 < n → 0 <= current_index st' < n) ∧
  (n = 0 → current_index st' = -1 ∨ current_index st' = 0) ∧
  (h <= n ∨ PageDown ∉ cs → scroll_loose h st → scroll_loose h st') ∧
  (h <= n ∨ PageDown ∉ cs → (∀ q, Search q ∉ cs) →
   scroll_ok h st → scroll_ok h st').
Proof.
  intros Hh Hidx. cbn zeta.
  pose proof (do_cmds_index_ok h cs st Hh Hidx) as Hidx'.
  pose proof (do_cmds_len h cs st) as Hlen.
  unfold index_ok in Hidx'. rewrite Hlen in Hidx'.
  split; [done|]. split; [lia|]. split; [lia|]. split.
  - intros Hpd Hok. by apply do_cmds_scroll_loose.
  - intros Hpd Hsr Hok. by apply do_cmds_scroll_ok.
Qed.

Lemma cursor_bounds_witness :
  0 <= current_index (do_cmds 19 [End; Search "pkg3"; MoveUp] seven_sample) < 7.
Proof.
  refine (proj1 (proj2 (cursor_bounds 19 [End; Search "pkg3"; MoveUp]
                          seven_sample _ _)) _).
  - lia.
  - unfold index_ok.
    change (len_packages seven_sample) with 7.
    change (current_index seven_sample) with 0. lia.
  - change (len_packages seven_sample) with 7. lia.
Defined.

(** ** The cache stays well formed over a session *)

Lemma search_packages_cache env st :
  package_cache (exec (search_packages env) st) = package_cache st.
Proof.
  unfold exec, search_packages. unfold_monad.
  case_bool_decide; cbn; [|done].
  by destruct (list_find _ (packages st)) as [[i item]|].
Qed.

Lemma mark_for_install_cache st :
  package_cache (mark_for_install st) = package_cache st.
Proof. unfold mark_for_install. by repeat case_match. Qed.

Lemma mark_for_remove_cache st :
  package_cache (mark_for_remove st) = package_cache st.
Proof. unfold mark_for_remove. by repeat case_match. Qed.

Lemma new_tui_cache_wf env ledger : Dict.wf (package_cache (new_tui env ledger)).
Proof.
  unfold new_tui, exec.
  destruct (load_packages_spec env (init_tui ledger))
    as (_ & _ & _ & _ & _ & _ & -> & _).
  apply available_wf. split; [apply NoDup_nil_2 | apply Forall_nil_2].
Qed.

Lemma handle_input_cache_wf env key st :
  Dict.wf (package_cache st) →
  Dict.wf (package_cache (exec (handle_input env key) st)).
Proof.
  intros Hwf. unfold exec, handle_input, mbind, M_bind, get_self.
  destruct (show_help st); [done|].
  destruct (key =? ord "q"); [done|].
  repeat match goal with
         | |- context [if ?b then _ else _] => destruct b
         end;
    try (unfold modify, mret, M_ret; cbn;
         unfold key_up, key_down; repeat case_match; done).
  - unfold modify; cbn. by rewrite mark_for_install_cache.
  - unfold modify; cbn. by rewrite mark_for_remove_cache.
  - destruct (apply_changes_spec env st) as (Hr & _ & _ & _ & _ & Hc & _).
    cbn zeta in *. destruct (apply_changes env st) as [[[]|e] st1]; [|done].
    cbn in *. by apply Hc.
  - destruct (load_packages_spec env st) as (Hr & _ & _ & _ & _ & _ & Hpc & _).
    cbn zeta in *. destruct (load_packages env st) as [[[]|e] st1]; [|done].
    cbn in *. rewrite Hpc. by apply available_wf.
  - pose proof (search_packages_cache env st) as Hpc. unfold exec in Hpc.
    destruct (search_packages_spec env st) as (Hr & _).
    cbn zeta in *. destruct (search_packages env st) as [[[]|e] st1]; [|done].
    cbn in *. by rewrite Hpc.
Qed.

(** * Further properties of the code *)

(** ** The selection stays on screen *)

Lemma do_cmd_in_range h st c :
  0 <= h →
  0 <= current_index st < len_packages st →
  0 <= current_index (do_cmd h st c) < len_packages (do_cmd h st c).
Proof.
  intros Hh Hin.
  assert (Hok : index_ok st) by (unfold index_ok; lia).
  pose proof (do_cmd_index_ok h st c Hh Hok) as Hok'.
  unfold index_ok, len_packages in *. rewrite do_cmd_packages in *. lia.
Qed.

Lemma do_cmd_visible h st c :
  1 <= h →
  0 <= current_index st < len_packages st →
  (∀ q, c ≠ Search q) ∨ 6 <= h →
  visible h st → visible h (do_cmd h st c).
Proof.
  intros Hh Hin Hsr Hvis. rewrite do_cmd_unfold.
  destruct (show_help st); [done|].
  destruct c; try (visible_step; done).
  destruct Hsr as [Hsr|Hh6]; [by destruct (Hsr query)|].
  destruct (search_jump (cmd_env h (Search query)) st)
    as [[Hi Hs]|(i & Hlt & Hi & Hs)];
    cbn zeta in *; unfold visible in *; rewrite Hi, Hs; lia.
Qed.

(** X1.  From a state whose selection is a position of the list and lies
    inside the window of [h >= 1] rows, every sequence of MoveUp, MoveDown,
    PageUp, PageDown, Home and End leaves the selection inside the window
    [scroll_offset .. scroll_offset + h - 1]; with [h >= 6] the same holds
    when searches are among the commands. *)
Theorem selection_stays_visible h cs st :
  1 <= h →
  0 <= current_index st < len_packages st →
  (∀ q, Search q ∉ cs) ∨ 6 <= h →
  visible h st →
  visible h (do_cmds h cs st).
Proof.
  intros Hh Hin Hsr Hvis.
  induction cs as [|c cs IH] using rev_ind; [done|].
  rewrite do_cmds_snoc.
  assert (Hsr' : (∀ q, Search q ∉ cs) ∨ 6 <= h).
  { destruct Hsr as [Hsr|?]; [left|by right].
    intros q Hq. apply (Hsr q), elem_of_app. by left. }
  apply do_cmd_visible; try done.
  - pose proof (do_cmds_index_ok h cs st ltac:(lia)) as Hok.
    unfold index_ok in Hok. rewrite do_cmds_len in *.
    assert (index_ok st) as Hst by (unfold index_ok; lia).
    specialize (Hok Hst). unfold index_ok in Hok. lia.
  - destruct Hsr as [Hsr|?]; [left|by right].
    intros q ->. apply (Hsr q), elem_of_app. right. by left.
  - by apply IH.
Qed.

Lemma selection_stays_visible_witness :
  visible 19 (do_cmds 19 [End; PageUp; Search "pkg6"; MoveUp] seven_sample).
Proof.
  apply (selection_stays_visible 19 [End; PageUp; Search "pkg6"; MoveUp]
           seven_sample).
  - lia.
  - change (len_packages seven_sample) with 7.
    change (current_index seven_sample) with 0. lia.
  - right. lia.
  - unfold visible. change (current_index seven_sample) with 0.
    change (scroll_offset seven_sample) with 0. lia.
Defined.

(** With fewer than 6 rows a search can leave the selection below the
    window: 7 entries, 3 rows, the match at position 6. *)
Example search_off_screen :
  current_index (do_cmd 3 seven_sample (Search "pkg6")) = 6 ∧
  scroll_offset (do_cmd 3 seven_sample (Search "pkg6")) = 1.
Proof. by vm_compute. Qed.

(** ** Marking at the edges *)

Lemma current_item_None st :
  ¬ (0 <= current_index st < len_packages st) → current_item st = None.
Proof.
  intros Hout. unfold current_item.
  destruct (0 <=? current_index st) eqn:H0; [|done].
  destruct (current_index st <? len_packages st) eqn:H1; [|done].
  apply Z.leb_le in H0. apply Z.ltb_lt in H1. lia.
Qed.

(** X2.  With the selection outside the list (an empty catalog, [-1]
    after End on an empty list, a position past the end after a rebuild),
    [mark_for_install] and [mark_for_remove] change nothing at all: no
    entry, not the status line, and no exception. *)
Theorem mark_outside_list st :
  ¬ (0 <= current_index st < len_packages st) →
  mark_for_install st = st ∧ mark_for_remove st = st.
Proof.
  intros Hout. unfold mark_for_install, mark_for_remove.
  by rewrite (current_item_None st Hout).
Qed.

Lemma mark_outside_list_witness :
  mark_for_install (new_tui empty_index_env ∅) = new_tui empty_index_env ∅.
Proof.
  refine (proj1 (mark_outside_list (new_tui empty_index_env ∅) _)).
  change (len_packages (new_tui empty_index_env ∅)) with 0.
  change (current_index (new_tui empty_index_env ∅)) with 0. lia.
Defined.

Lemma mark_for_install_keeps st i item :
  catalog_ok st →
  packages st !! i = Some item →
  action item = INSTALL ∨ action item = REMOVE →
  packages (mark_for_install st) !! i = Some item.
Proof.
  intros Hok Hl Hact. unfold mark_for_install.
  destruct (current_item st) as [[j it]|] eqn:Hc; [|done].
  apply current_item_inv in Hc as [_ Hj].
  destruct (installed it) eqn:Hinst; cbn; [done|].
  destruct (decide (j = i)) as [->|Hne].
  - rewrite Hl in Hj. injection Hj as <-.
    rewrite list_lookup_alter_eq, Hl. cbn. f_equal.
    destruct Hact as [Ha|Ha].
    + destruct item. cbn in *. by rewrite Ha.
    + unfold catalog_ok in Hok. rewrite Forall_forall in Hok.
      destruct (Hok item) as [_ Hrem]; [by eapply list_elem_of_lookup_2|].
      rewrite Hrem in Hinst by (by left). done.
  - by rewrite list_lookup_alter_ne.
Qed.

Lemma mark_for_remove_keeps st i item :
  catalog_ok st →
  packages st !! i = Some item →
  action item = INSTALL ∨ action item = REMOVE →
  packages (mark_for_remove st) !! i = Some item.
Proof.
  intros Hok Hl Hact. unfold mark_for_remove.
  destruct (current_item st) as [[j it]|] eqn:Hc; [|done].
  apply current_item_inv in Hc as [_ Hj].
  destruct (installed it) eqn:Hinst; cbn; [|done].
  destruct (decide (j = i)) as [->|Hne].
  - rewrite Hl in Hj. injection Hj as <-.
    rewrite list_lookup_alter_eq, Hl. cbn. f_equal.
    destruct Hact as [Ha|Ha].
    + unfold catalog_ok in Hok. rewrite Forall_forall in Hok.
      destruct (Hok item) as [Hins _]; [by eapply list_elem_of_lookup_2|].
      rewrite Hins in Hinst by done. done.
    + destruct item. cbn in *. by rewrite Ha.
  - by rewrite list_lookup_alter_ne.
Qed.

(** X3.  There is no way to take a mark back: in a catalog that meets the
    entry invariant, an entry marked [INSTALL] or [REMOVE] is the same
    entry after any key other than [g] (apply) and [u] (refresh). *)
Theorem marks_are_sticky env key st i item :
  catalog_ok st →
  key ≠ ord "g" →
  key ≠ ord "u" →
  packages st !! i = Some item →
  action item = INSTALL ∨ action item = REMOVE →
  packages (press env key st) !! i = Some item.
Proof.
  intros Hok Hg Hu Hl Hact.
  apply Z.eqb_neq in Hg, Hu.
  unfold press, exec, handle_input, mbind, M_bind, get_self.
  destruct (show_help st); [done|].
  destruct (key =? ord "q"); [done|].
  rewrite Hg, Hu.
  repeat match goal with
         | |- context [if ?b then _ else _] => destruct b
         end;
    try (unfold modify, mret, M_ret; cbn;
         rewrite ?key_up_packages, ?key_down_packages; done).
  - unfold modify; cbn. by apply mark_for_install_keeps.
  - unfold modify; cbn. by apply mark_for_remove_keeps.
  - destruct (search_packages_spec env st) as (Hr & Hpk & _).
    cbn zeta in *. destruct (search_packages env st) as [[[]|e] st1]; [|done].
    cbn in *. by rewrite Hpk.
Qed.

Lemma marks_are_sticky_witness :
  packages (press quiet_env (ord "-") marked_sample) !! 0%nat
  = Some (mkItem sl false INSTALL).
Proof.
  apply (marks_are_sticky quiet_env (ord "-") marked_sample 0
           (mkItem sl false INSTALL)).
  - unfold catalog_ok. rewrite marked_sample_packages.
    repeat constructor; cbn; try done. by intros [].
  - by vm_compute.
  - by vm_compute.
  - by vm_compute.
  - by left.
Defined.

(** ** Keys without a command, and the help screen *)

(** X4.  A key that is none of the bound keys changes nothing and keeps
    the loop running. *)
Theorem unbound_key_does_nothing env key st :
  show_help st = false →
  key ∉ bound_keys →
  handle_input env key st = (Ok true, st).
Proof.
  intros Hhelp Hkey. unfold bound_keys in Hkey.
  repeat (apply not_elem_of_cons in Hkey as [? Hkey]).
  unfold handle_input, mbind, M_bind, get_self. rewrite Hhelp.
  repeat match goal with
         | H : key ≠ _ |- _ => apply Z.eqb_neq in H; rewrite H; clear H
         end.
  reflexivity.
Qed.

Lemma unbound_key_does_nothing_witness :
  handle_input quiet_env (ord "x") marked_sample = (Ok true, marked_sample).
Proof.
  apply (unbound_key_does_nothing quiet_env (ord "x") marked_sample).
  - by vm_compute.
  - unfold bound_keys. intros Hin.
    repeat (apply elem_of_cons in Hin as [Hin|Hin]; [by vm_compute in Hin|]).
    by apply elem_of_nil in Hin.
Defined.

(** X5.  While the help screen is open every key, [q] included, only
    closes it: pressing [?] and then any key gives back the state before
    [?], and the loop goes on. *)
Theorem help_swallows_next_key env env' key st :
  show_help st = false →
  handle_input env' key (press env (ord "?") st) = (Ok true, st).
Proof.
  intros Hhelp.
  assert (Hopen : press env (ord "?") st = set_show_help true st).
  { unfold press, exec, handle_input, mbind, M_bind, get_self. by rewrite Hhelp. }
  rewrite Hopen. unfold handle_input, mbind, M_bind, get_self. cbn.
  destruct st. cbn in *. by subst.
Qed.

Lemma help_swallows_next_key_witness :
  handle_input quiet_env (ord "q") (press quiet_env (ord "?") marked_sample)
  = (Ok true, marked_sample).
Proof.
  apply (help_swallows_next_key quiet_env quiet_env (ord "q") marked_sample).
  by vm_compute.
Defined.

(** ** Refreshing *)

(** X6.  Once the repository cache holds anything, [load_packages] never
    asks the repository again: whatever the repository would answer, the
    cache is unchanged, the only outside call is the screen refresh, the
    catalog lists exactly the cached packages, and every mark is gone. *)
Theorem refresh_reuses_cache env st :
  package_cache st ≠ [] →
  let st' := exec (load_packages env) st in
  package_cache st' = package_cache st ∧
  trace st' = trace st ++ [EvRefresh] ∧
  package <$> packages st' ≡ₚ (package_cache st).*2 ∧
  Forall (λ it, action it = NONE) (packages st').
Proof.
  intros Hne. cbn zeta.
  pose proof (load_packages_actions env st) as Hact.
  destruct (load_packages_spec env st) as (_ & _ & _ & _ & _ & _ & Hpc & Hpk).
  cbn zeta in *.
  assert (Hav : available env (package_cache st) = package_cache st).
  { unfold available. by destruct (package_cache st). }
  assert (Htr : trace (exec (load_packages env) st) = trace st ++ [EvRefresh]).
  { unfold exec, load_packages, fetch_package_list. unfold_monad.
    cbn [fst snd package_cache set_status_message set_trace trace].
    destruct (package_cache st) as [|kv cache] eqn:Hc; [done|]. reflexivity. }
  unfold exec in *. rewrite Hpc, Hpk, Hav.
  split; [done|]. split; [done|]. split; [|by rewrite Hpk, Hav in Hact].
  rewrite sort_by_name_perm, <- list_fmap_compose. done.
Qed.

Lemma refresh_reuses_cache_witness :
  trace (exec (load_packages (index_env [vim_info])) marked_sample)
  = trace marked_sample ++ [EvRefresh].
Proof.
  refine (proj1 (proj2 (refresh_reuses_cache (index_env [vim_info])
                          marked_sample _))).
  by vm_compute.
Defined.

(** X7.  When the cache is empty and the index cannot be fetched,
    [load_packages] does not fail: the catalog is the one built-in package
    [sl], installed or not as the ledger says. *)
Theorem fetch_failure_falls_back env st :
  package_cache st = [] →
  index_json env = None →
  (load_packages env st).1 = Ok tt ∧
  packages (exec (load_packages env) st)
  = [new_item sl (is_installed (db st) "sl")] ∧
  package_cache (exec (load_packages env) st) = fallback_cache.
Proof.
  intros Hc Hidx.
  destruct (load_packages_spec env st) as (Hok & _ & _ & _ & _ & _ & Hpc & Hpk).
  cbn zeta in *. unfold exec. rewrite Hpc, Hpk.
  unfold available. rewrite Hc, Hidx. done.
Qed.

Lemma fetch_failure_falls_back_witness :
  packages (exec (load_packages quiet_env) (init_tui {["sl" := sl]}))
  = [new_item sl true].
Proof.
  exact (proj1 (proj2 (fetch_failure_falls_back quiet_env
                         (init_tui {["sl" := sl]}) eq_refl eq_refl))).
Defined.

(** ** The ledger *)

(** X8.  [db.add] lists the package in memory whether or not the ledger
    file can be written: afterwards [get] returns the package under its
    name, every other name is as before, and the call raises exactly when
    the write of the new ledger fails. *)
Theorem db_add_updates_memory env pkg st :
  let r := db_add env pkg st in
  db_get (db r.2) (name pkg) = Some pkg ∧
  is_installed (db r.2) (name pkg) = true ∧
  (∀ nm, nm ≠ name pkg → db_get (db r.2) nm = db_get (db st) nm) ∧
  r.1 = match save env (<[name pkg := pkg]> (db st)) with
        | None => Ok tt
        | Some e => Raise e
        end.
Proof.
  cbn zeta. unfold db_add, db_get, is_installed. unfold_monad. cbn.
  destruct (save env _) eqn:Hs; cbn;
    (split; [by rewrite lookup_insert_eq|]);
    (split; [apply bool_decide_eq_true; by rewrite lookup_insert_eq|]);
    (split; [|done]); intros nm Hnm; by rewrite lookup_insert_ne.
Qed.

(** X9.  [db.remove] unlists the name in memory whether or not the ledger
    file can be written and leaves every other name alone; for a name the
    ledger does not list it writes nothing, returns normally and leaves
    the ledger as it was. *)
Theorem db_remove_unlists env nm st :
  let r := db_remove env nm st in
  db_get (db r.2) nm = None ∧
  (∀ nm', nm' ≠ nm → db_get (db r.2) nm' = db_get (db st) nm') ∧
  (is_installed (db st) nm = false → r.1 = Ok tt ∧ db r.2 = db st) ∧
  (is_installed (db st) nm = true →
   r.1 = match save env (delete nm (db st)) with
         | None => Ok tt
         | Some e => Raise e
         end).
Proof.
  cbn zeta. unfold db_remove, db_get. unfold_monad. cbn.
  destruct (is_installed (db st) nm) eqn:Hin; cbn.
  - destruct (save env _) eqn:Hs; cbn;
      (split; [by rewrite lookup_delete_eq|]);
      (split; [intros nm' Hnm; by rewrite lookup_delete_ne|]);
      (split; [done|]); done.
  - split.
    { unfold is_installed in Hin. apply bool_decide_eq_false in Hin.
      by apply eq_None_not_Some. }
    done.
Qed.

Lemma db_remove_unlists_witness :
  (db_remove failing_env "vim" marking_sample).1 = Ok tt ∧
  db (db_remove failing_env "vim" marking_sample).2 = db marking_sample.
Proof.
  refine (proj1 (proj2 (proj2 (db_remove_unlists failing_env "vim"
                                 marking_sample))) _).
  by vm_compute.
Defined.

(** X10.  Adding a package the ledger does not list and then removing it
    gives back the ledger in memory, whatever happens to the two writes
    of the file. *)
Theorem db_add_remove_round_trip env env' pkg st :
  is_installed (db st) (name pkg) = false →
  db (exec (db_remove env' (name pkg)) (exec (db_add env pkg) st)) = db st.
Proof.
  intros Hin. unfold is_installed in Hin. apply bool_decide_eq_false in Hin.
  apply eq_None_not_Some in Hin.
  unfold exec, db_add, db_remove, is_installed. unfold_monad. cbn.
  destruct (save env _); cbn;
    (rewrite bool_decide_eq_true_2 by (by rewrite lookup_insert_eq));
    cbn; destruct (save env' _); cbn;
    rewrite delete_insert_eq; by apply delete_id.
Qed.

Lemma db_add_remove_round_trip_witness :
  db (exec (db_remove failing_env "vim") (exec (db_add quiet_env vim) marking_sample))
  = db marking_sample.
Proof.
  apply (db_add_remove_round_trip quiet_env failing_env vim marking_sample).
  by vm_compute.
Defined.

(** ** Removals that succeed, and removals that fail at the ledger write *)

(** X11.  A removal that succeeds changes the entry it was called on and
    no other: the entry is not installed and has no pending action, the
    ledger no longer lists its name, and the status line reports the
    success. *)
Theorem successful_removal env st i item :
  packages st !! i = Some item →
  remove_failure env (db st) (package item) = None →
  let st' := exec (remove_package env i) st in
  packages st' = <[i := mkItem (package item) false NONE]> (packages st) ∧
  db st' = delete (name (package item)) (db st) ∧
  status_message st' = "Successfully removed " +:+ name (package item).
Proof.
  intros Hl Hok. cbn zeta. unfold exec.
  destruct (remove_package_spec env i st item Hl) as (_ & _ & _ & _ & _ & _ & Hres).
  cbn zeta in Hres. by rewrite Hok in Hres.
Qed.

Lemma successful_removal_witness :
  packages (exec (remove_package quiet_env 0) installed_marked_sample)
  = [mkItem sl false NONE] ∧
  db (exec (remove_package quiet_env 0) installed_marked_sample)
  = delete "sl" (db installed_marked_sample).
Proof.
  destruct (successful_removal quiet_env installed_marked_sample 0
              (mkItem sl true REMOVE)) as (Hpk & Hdb & _).
  - by vm_compute.
  - by vm_compute.
  - split; [exact Hpk|exact Hdb].
Defined.

(** The installed flag and the action of every entry of a rebuilt
    catalog. *)
Lemma load_packages_flags env st it :
  Dict.wf (package_cache st) →
  it ∈ packages (exec (load_packages env) st) →
  installed it = is_installed (db st) (name (package it)) ∧ action it = NONE.
Proof.
  intros Hwf Hit. unfold exec in Hit.
  destruct (load_packages_spec env st) as (_ & _ & _ & _ & _ & _ & _ & Hpk).
  cbn zeta in Hpk. rewrite Hpk, sort_by_name_perm in Hit.
  apply list_elem_of_fmap in Hit as ([k v] & -> & Hkv). cbn.
  destruct (available_wf env _ Hwf) as [_ Hall].
  rewrite Forall_forall in Hall. pose proof (Hall _ Hkv) as Hname.
  cbn in Hname. by rewrite Hname.
Qed.

(** X12.  A removal that fails only at the write of the ledger file
    reports an error and leaves the entry marked and installed, but the
    ledger in memory has dropped the package all the same; the next
    rebuild of the catalog shows the package as not installed. *)
Theorem failed_write_still_unlists env env' st i item e :
  Dict.wf (package_cache st) →
  packages st !! i = Some item →
  rmtree env (package item) = None →
  is_installed (db st) (name (package item)) = true →
  save env (delete (name (package item)) (db st)) = Some e →
  let st' := exec (remove_package env i) st in
  status_message st' = "Error removing " +:+ name (package item) +:+ ": " +:+ e ∧
  packages st' = packages st ∧
  is_installed (db st') (name (package item)) = false ∧
  (∀ it, it ∈ packages (exec (load_packages env') st') →
         name (package it) = name (package item) → installed it = false).
Proof.
  intros Hwf Hl Hd Hin Hs. cbn zeta.
  assert (Hst : ∃ st', exec (remove_package env i) st = st' ∧
             status_message st'
               = "Error removing " +:+ name (package item) +:+ ": " +:+ e ∧
             packages st' = packages st ∧
             package_cache st' = package_cache st ∧
             db st' = delete (name (package item)) (db st)).
  { eexists. split; [reflexivity|].
    unfold exec, remove_package, mbind, M_bind, get_self. rewrite Hl.
    unfold_monad. cbn. rewrite Hd. cbn. rewrite Hin. cbn. rewrite Hs. cbn.
    done. }
  destruct Hst as (st' & -> & Hmsg & Hpk & Hpc & Hdb).
  assert (Hout : is_installed (db st') (name (package item)) = false).
  { rewrite Hdb. apply bool_decide_eq_false. rewrite lookup_delete_eq.
    by intros [? ?]. }
  split; [done|]. split; [done|]. split; [done|].
  intros it Hit Hname.
  destruct (load_packages_flags env' st' it) as [Hinst _]; [by rewrite Hpc|done|].
  by rewrite Hinst, Hname.
Qed.

Lemma failed_write_still_unlists_witness :
  packages (exec (remove_package save_fails_env 0) installed_marked_sample)
  = [mkItem sl true REMOVE] ∧
  is_installed
    (db (exec (remove_package save_fails_env 0) installed_marked_sample)) "sl"
  = false.
Proof.
  destruct (failed_write_still_unlists save_fails_env quiet_env
              installed_marked_sample 0 (mkItem sl true REMOVE) "disk full")
    as (_ & Hpk & Hdb & _).
  - apply handle_input_cache_wf, new_tui_cache_wf.
  - by vm_compute.
  - done.
  - by vm_compute.
  - by vm_compute.
  - split; [exact Hpk|exact Hdb].
Defined.

(** ** After a batch *)

Lemma apply_changes_confirmed_eq env st :
  confirmed env = true →
  Exists (λ it, action it = INSTALL ∨ action it = REMOVE) (packages st) →
  ∃ st3, package_cache st3 = package_cache st ∧
         apply_changes env st = load_packages env st3.
Proof.
  intros Hc Hplan. unfold apply_changes, mbind, M_bind, get_self.
  rewrite (plan_nonempty _ Hplan).
  unfold draw, read_key, emit, modify, mbind, M_bind, get_self, mret, M_ret.
  cbn [fst snd].
  assert (Hneg : negb (getch env =? ord "y") && negb (getch env =? ord "Y") = false).
  { unfold confirmed in Hc. by destruct (getch env =? ord "y"), (getch env =? ord "Y"). }
  rewrite Hneg.
  match goal with
  | |- context [for_each (marked INSTALL _) _ ?s] => set (st1 := s)
  end.
  destruct (install_loop_frame env (marked INSTALL (packages st)) st1)
    as (Hok1 & Hfr1 & _).
  cbn zeta in Hok1, Hfr1.
  destruct (for_each (marked INSTALL (packages st)) (install_package env) st1)
    as [[[]|e1] st2]; cbn in Hok1, Hfr1; [|done].
  destruct (remove_loop_frame env (marked REMOVE (packages st)) st2)
    as (Hok2 & Hfr2 & _).
  cbn zeta in Hok2, Hfr2.
  destruct (for_each (marked REMOVE (packages st)) (remove_package env) st2)
    as [[[]|e2] st3]; cbn in Hok2, Hfr2; [|done].
  exists st3. split; [|done].
  destruct Hfr1 as (_ & _ & Hpc1 & _). destruct Hfr2 as (_ & _ & Hpc2 & _).
  by rewrite Hpc2, Hpc1.
Qed.

(** X13.  A confirmed batch with at least one marked entry always ends
    in a catalog rebuilt from the ledger: whatever succeeded or failed, no
    entry has a pending action and every installed flag says whether the
    ledger in memory lists the entry's name. *)
Theorem batch_ends_in_resync env st it :
  Dict.wf (package_cache st) →
  confirmed env = true →
  Exists (λ it, action it = INSTALL ∨ action it = REMOVE) (packages st) →
  let st' := exec (apply_changes env) st in
  it ∈ packages st' →
  action it = NONE ∧
  installed it = is_installed (db st') (name (package it)).
Proof.
  intros Hwf Hc Hplan. cbn zeta.
  destruct (apply_changes_confirmed_eq env st Hc Hplan) as (st3 & Hpc & Heq).
  unfold exec. rewrite Heq. intros Hit.
  destruct (load_packages_flags env st3 it) as [Hinst Hact];
    [by rewrite Hpc | done |].
  destruct (load_packages_spec env st3) as (_ & _ & _ & _ & Hdb & _).
  cbn zeta in Hdb. by rewrite Hdb.
Qed.

Lemma batch_ends_in_resync_witness :
  action (mkItem (package_of_info sl_info) false NONE) = NONE ∧
  installed (mkItem (package_of_info sl_info) false NONE)
  = is_installed (db (exec (apply_changes failing_env) two_marked_sample)) "sl".
Proof.
  apply (batch_ends_in_resync failing_env two_marked_sample
           (mkItem (package_of_info sl_info) false NONE)).
  - do 3 apply handle_input_cache_wf. apply new_tui_cache_wf.
  - by vm_compute.
  - rewrite two_marked_sample_packages. apply Exists_cons_hd. by left.
  - vm_compute. by left.
Defined.

(** ** What touches the ledger *)

Lemma search_packages_db env st : db (exec (search_packages env) st) = db st.
Proof.
  unfold exec, search_packages. unfold_monad.
  case_bool_decide; cbn; [|done].
  by destruct (list_find _ (packages st)) as [[i item]|].
Qed.

Lemma apply_changes_unconfirmed env st :
  confirmed env = false →
  db (exec (apply_changes env) st) = db st.
Proof.
  intros Hc. unfold exec, apply_changes, mbind, M_bind, get_self.
  destruct (is_empty _ && is_empty _); [done|].
  unfold draw, read_key, emit, modify, mbind, M_bind, get_self, mret, M_ret.
  cbn [fst snd]. unfold confirmed in Hc.
  apply orb_false_iff in Hc as [Hy HY]. rewrite Hy, HY. done.
Qed.

(** X14.  The ledger in memory changes, and a download or a directory
    removal is started, only inside a batch that was confirmed with [y] or
    [Y]: after any other key, and after [g] answered with any other key,
    the ledger is as before and the trace has no new step. *)
Theorem ledger_changes_only_when_confirmed env key st :
  (key = ord "g" → confirmed env = false) →
  db (press env key st) = db st ∧
  steps_of (trace (press env key st)) = steps_of (trace st).
Proof.
  intros Hg.
  unfold press, exec, handle_input, mbind, M_bind, get_self.
  destruct (show_help st); [done|].
  destruct (key =? ord "q"); [done|].
  repeat match goal with
         | |- context [if ?b then _ else _] =>
             lazymatch b with
             | key =? ord "g" => fail
             | _ => destruct b
             end
         end;
    try (unfold modify, mret, M_ret; cbn;
         unfold key_up, key_down, mark_for_install, mark_for_remove;
         repeat case_match; done).
  all: destruct (key =? ord "g") eqn:Hkey;
    [ apply Z.eqb_eq in Hkey; specialize (Hg Hkey);
      pose proof (apply_changes_unconfirmed env st Hg) as Hdb;
      destruct (apply_changes_spec env st) as (Hr & _ & _ & _ & _ & _ & Htr);
      cbn zeta in *; rewrite Hg, app_nil_r in Htr; unfold exec in Hdb;
      destruct (apply_changes env st) as [[[]|e] st1]; [|done]; done
    | ].
  - destruct (load_packages_spec env st) as (Hr & _ & _ & _ & Hdb & Htr & _).
    cbn zeta in *.
    destruct (load_packages env st) as [[[]|e] st1]; [|done]. done.
  - pose proof (search_packages_db env st) as Hdb. unfold exec in Hdb.
    destruct (search_packages_spec env st) as (Hr & _ & _ & Htr & _).
    cbn zeta in *.
    destruct (search_packages env st) as [[[]|e] st1]; [|done]. done.
  - by cbn.
Qed.

Lemma ledger_changes_only_when_confirmed_witness :
  db (press quiet_env (ord "g") two_marked_sample) = db two_marked_sample.
Proof.
  refine (proj1 (ledger_changes_only_when_confirmed quiet_env (ord "g")
                   two_marked_sample _)).
  intros _. by vm_compute.
Defined.

(** ** [get_package_info] *)

Lemma dict_get_name d k v : Dict.wf d → Dict.get k d = Some v → name v = k.
Proof.
  intros [_ Hall] Hget. apply dict_get_elem_of in Hget.
  rewrite Forall_forall in Hall. exact (Hall _ Hget).
Qed.

(** X15.  With a well-formed cache, [get_package_info] never raises.  A
    package it returns has the requested name and, when a version was
    asked for, that version, and it is what the cache holds under that
    name afterwards; the cache stays well formed and no other name of the
    cache changes.  Without a version nothing is requested from the
    repository and nothing changes: the answer is the cached package or
    [None]. *)
Theorem get_package_info_answer requirements nm v st :
  Dict.wf (package_cache st) →
  let r := get_package_info requirements nm v st in
  ∃ o, r.1 = Ok o ∧
       (∀ p, o = Some p →
             name p = nm ∧ (∀ w, v = Some w → version p = w) ∧
             Dict.get nm (package_cache r.2) = Some p) ∧
       Dict.wf (package_cache r.2) ∧
       (∀ nm', nm' ≠ nm →
               Dict.get nm' (package_cache r.2) = Dict.get nm' (package_cache st)) ∧
       (v = None → o = Dict.get nm (package_cache st) ∧ r.2 = st).
Proof.
  intros Hwf. cbn zeta. unfold get_package_info, mbind, M_bind, get_self.
  assert (Hfetch : ∀ w deps,
    let pkg := mkPackage nm w ("Package " +:+ nm) deps [] "/opt/pypkg" in
    let st' := set_package_cache (Dict.set nm pkg (package_cache st)) st in
    (∀ p, Some pkg = Some p →
          name p = nm ∧ (∀ w', Some w = Some w' → version p = w') ∧
          Dict.get nm (package_cache st') = Some p) ∧
    Dict.wf (package_cache st') ∧
    (∀ nm', nm' ≠ nm →
            Dict.get nm' (package_cache st') = Dict.get nm' (package_cache st))).
  { intros w deps pkg st'. subst st'. cbn. split; [|split].
    - intros p [= <-]. split; [done|]. split; [by intros w' [= <-]|].
      rewrite dict_get_set. by case_decide.
    - by apply (dict_wf_set pkg).
    - intros nm' Hne. rewrite dict_get_set. by case_decide. }
  destruct (Dict.get nm (package_cache st)) as [cached|] eqn:Hget.
  - pose proof (dict_get_name _ _ _ Hwf Hget) as Hname.
    destruct v as [w|].
    + destruct (String.eqb_spec (version cached) w) as [Hv|Hv].
      * exists (Some cached). cbn. split; [done|]. split.
        { intros p [= <-]. split; [done|]. split; [|done]. by intros w' [= <-]. }
        split; [done|]. split; [done|]. by intros [=].
      * case_bool_decide as Hw; cbn.
        -- destruct requirements as [deps|]; unfold_monad; cbn.
           ++ eexists. split; [done|].
              destruct (Hfetch w deps) as (H1 & H2 & H3).
              split; [exact H1|]. split; [exact H2|]. split; [exact H3|].
              by intros [=].
           ++ exists None. split; [done|].
              split; [by intros p [=]|]. split; [done|]. split; [done|].
              by intros [=].
        -- exists None. split; [done|].
           split; [by intros p [=]|]. split; [done|]. split; [done|].
           by intros [=].
    + exists (Some cached). cbn. split; [done|]. split.
      { intros p [= <-]. split; [done|]. split; [|done]. by intros w' [=]. }
      done.
  - destruct v as [w|].
    + case_bool_decide as Hw; cbn.
      * destruct requirements as [deps|]; unfold_monad; cbn.
        -- eexists. split; [done|].
           destruct (Hfetch w deps) as (H1 & H2 & H3).
           split; [exact H1|]. split; [exact H2|]. split; [exact H3|].
           by intros [=].
        -- exists None. split; [done|].
           split; [by intros p [=]|]. split; [done|]. split; [done|].
           by intros [=].
      * exists None. split; [done|].
        split; [by intros p [=]|]. split; [done|]. split; [done|].
        by intros [=].
    + exists None. cbn. split; [done|]. split; [by intros p [=]|]. done.
Qed.

Lemma get_package_info_answer_witness :
  ∃ o, (get_package_info (Some ["ncurses"]) "sl" (Some "6.0") marking_sample).1
       = Ok o.
Proof.
  destruct (get_package_info_answer (Some ["ncurses"]) "sl" (Some "6.0")
              marking_sample (new_tui_cache_wf quiet_env ∅)) as (o & Ho & _).
  exists o. exact Ho.
Defined.

(** ** Painting the list *)

Lemma py_index_inside {A} (l : list A) z :
  0 <= z < Z.of_nat (length l) → py_index l z = l !! Z.to_nat z.
Proof.
  intros Hz. unfold py_index.
  replace (0 <=? z) with true by (symmetry; apply Z.leb_le; lia).
  replace (z <? Z.of_nat (length l)) with true by (symmetry; apply Z.ltb_lt; lia).
  done.
Qed.

Lemma py_index_wrapped {A} (l : list A) z :
  - Z.of_nat (length l) <= z < 0 →
  py_index l z = l !! Z.to_nat (Z.of_nat (length l) + z).
Proof.
  intros Hz. unfold py_index.
  replace (0 <=? z) with false by (symmetry; apply Z.leb_gt; lia).
  replace (- Z.of_nat (length l) <=? z) with true by (symmetry; apply Z.leb_le; lia).
  replace (z <? 0) with true by (symmetry; apply Z.ltb_lt; lia).
  done.
Qed.

Lemma py_index_below {A} (l : list A) z :
  z < - Z.of_nat (length l) → py_index l z = None.
Proof.
  intros Hz. unfold py_index.
  replace (0 <=? z) with false by (symmetry; apply Z.leb_gt; lia).
  replace (- Z.of_nat (length l) <=? z) with false by (symmetry; apply Z.leb_gt; lia).
  done.
Qed.

Lemma py_index_is_Some {A} (l : list A) z :
  - Z.of_nat (length l) <= z < Z.of_nat (length l) → is_Some (py_index l z).
Proof.
  intros Hz. destruct (decide (0 <= z)).
  - rewrite py_index_inside by lia. apply lookup_lt_is_Some. lia.
  - rewrite py_index_wrapped by lia. apply lookup_lt_is_Some. lia.
Qed.

(** The rows painted from iteration [i] on when no position is negative. *)
Lemma paint_rows_window width st n i :
  0 <= i + scroll_offset st →
  ∃ rows,
    paint_rows width st n i = Ok rows ∧
    length rows
    = Nat.min n (Z.to_nat (len_packages st - (i + scroll_offset st))) ∧
    ∀ (k : nat) r, rows !! k = Some r →
      row_y r = i + Z.of_nat k + 2 ∧
      ∃ item,
        packages st !! Z.to_nat (i + Z.of_nat k + scroll_offset st) = Some item ∧
        row_attr r
        = row_color (i + Z.of_nat k + scroll_offset st =? current_index st) item ∧
        row_text r
        = ljust (width - 1) (slice_to (width - 1) (get_display_line item width)).
Proof.
  revert i. induction n as [|n IH]; intros i Hi.
  - exists []. cbn. split; [done|]. split; [done|]. intros k r Hk. done.
  - cbn [paint_rows]. unfold len_packages in *.
    destruct (i + scroll_offset st >=? Z.of_nat (length (packages st))) eqn:Hge.
    + rewrite Z.geb_leb in Hge. apply Z.leb_le in Hge.
      exists []. split; [done|]. split; [cbn [length]; lia|].
      intros k r Hk. done.
    + rewrite Z.geb_leb in Hge. apply Z.leb_gt in Hge.
      rewrite py_index_inside by lia.
      destruct (packages st !! Z.to_nat (i + scroll_offset st)) as [item|] eqn:Hl.
      2: { apply lookup_ge_None in Hl. lia. }
      destruct (IH (i + 1)) as (rows & Hrows & Hlen & Hk); [lia|].
      rewrite Hrows. eexists. split; [done|].
      split; [cbn [length]; rewrite Hlen; lia|].
      intros [|k] r Hr; cbn in Hr.
      * injection Hr as <-. cbn. split; [lia|]. exists item.
        rewrite Z.add_0_r. done.
      * destruct (Hk k r Hr) as (Hy & item' & Hl' & Ha & Ht).
        split; [lia|]. exists item'.
        replace (i + Z.of_nat (S k)) with (i + 1 + Z.of_nat k) by lia. done.
Qed.

(** Painting from a position that wraps, but stays inside the list,
    does not raise. *)
Lemma paint_rows_no_raise width st n i :
  - len_packages st <= i + scroll_offset st →
  ∃ rows, paint_rows width st n i = Ok rows.
Proof.
  revert i. induction n as [|n IH]; intros i Hi; [by exists []|].
  cbn [paint_rows]. unfold len_packages in *.
  destruct (i + scroll_offset st >=? Z.of_nat (length (packages st))) eqn:Hge;
    [by exists []|].
  rewrite Z.geb_leb in Hge. apply Z.leb_gt in Hge.
  destruct (py_index_is_Some (packages st) (i + scroll_offset st)) as [item ->];
    [lia|].
  destruct (IH (i + 1)) as (rows & ->); [lia|]. by eexists.
Qed.

(** The loop raises when there is a row to paint and the first position
    lies before the start of the list, and in no other state. *)
Lemma draw_package_list_raises env st :
  5 < (getmaxyx env).1 → scroll_offset st < - len_packages st →
  draw_package_list env st = Raise "list index out of range".
Proof.
  unfold draw_package_list. destruct (getmaxyx env) as [height width].
  cbn [fst snd]. intros Hh Hs.
  destruct (Z.to_nat (height - 5)) as [|n] eqn:Hn; [lia|].
  cbn [paint_rows]. unfold len_packages in *.
  replace (0 + scroll_offset st >=? Z.of_nat (length (packages st))) with false
    by (symmetry; rewrite Z.geb_leb; apply Z.leb_gt; lia).
  by rewrite py_index_below by lia.
Qed.

Lemma draw_package_list_returns env st :
  ¬ (5 < (getmaxyx env).1 ∧ scroll_offset st < - len_packages st) →
  ∃ rows, draw_package_list env st = Ok rows.
Proof.
  unfold draw_package_list. destruct (getmaxyx env) as [height width].
  cbn [fst snd]. intros Hnot. destruct (decide (5 < height)) as [Hh|Hh].
  - apply paint_rows_no_raise. lia.
  - replace (Z.to_nat (height - 5)) with 0%nat by lia. by exists [].
Qed.

(** X16.  Once the column headers are written, and with a scroll offset of
    at least 0, [draw_package_list] does not raise and writes one row (one
    [addstr]) for each of the entries at positions [scroll_offset],
    [scroll_offset + 1], ... on screen lines 2, 3, ...: as many as fit in
    [height - 5] rows and are left in the list.  The row of the selected
    position, and no other, carries the highlight, and the text of a row
    is the display line of its entry cut or padded to [width - 1]
    characters. *)
Theorem draw_shows_window header env st :
  header = None →
  0 <= scroll_offset st →
  ∃ rows,
    draw_package_list_headed header env st = Ok rows ∧
    length rows
    = Z.to_nat (Z.min ((getmaxyx env).1 - 5)
                      (len_packages st - scroll_offset st)) ∧
    ∀ (k : nat) r, rows !! k = Some r →
      row_y r = Z.of_nat k + 2 ∧
      ∃ item,
        packages st !! Z.to_nat (Z.of_nat k + scroll_offset st) = Some item ∧
        row_attr r
        = row_color (Z.of_nat k + scroll_offset st =? current_index st) item ∧
        row_text r
        = ljust ((getmaxyx env).2 - 1)
                (slice_to ((getmaxyx env).2 - 1)
                          (get_display_line item (getmaxyx env).2)).
Proof.
  intros -> Hs. unfold draw_package_list_headed, draw_package_list.
  destruct (getmaxyx env) as [height width]. cbn [fst snd].
  destruct (paint_rows_window width st (Z.to_nat (height - 5)) 0)
    as (rows & Hrows & Hlen & Hk); [lia|].
  exists rows. split; [done|]. split; [rewrite Hlen; lia|].
  intros k r Hr. destruct (Hk k r Hr) as (Hy & item & Hl & Ha & Ht).
  split; [lia|]. exists item. done.
Qed.

Lemma draw_shows_window_witness :
  ∃ rows, draw_package_list_headed None quiet_env seven_sample = Ok rows ∧
          length rows = 7%nat.
Proof.
  destruct (draw_shows_window None quiet_env seven_sample) as (rows & Hrows & Hlen & _).
  - reflexivity.
  - change (scroll_offset seven_sample) with 0. lia.
  - exists rows. split; [exact Hrows|]. rewrite Hlen.
    change (len_packages seven_sample) with 7.
    change (scroll_offset seven_sample) with 0. reflexivity.
Defined.

(** X17.  [draw_package_list] raises in two cases and returns normally in
    every other: when curses refuses the column headers, its
    [curses.error] leaves the method; when the headers are written, the
    method raises [IndexError] exactly when there is at least one row to
    paint and the scroll offset is below minus the length of the list. *)
Theorem draw_raises_iff header env st :
  (∀ e, header = Some e → draw_package_list_headed header env st = Raise e) ∧
  (header = None →
   5 < (getmaxyx env).1 ∧ scroll_offset st < - len_packages st →
   draw_package_list_headed header env st = Raise "list index out of range") ∧
  (header = None →
   ¬ (5 < (getmaxyx env).1 ∧ scroll_offset st < - len_packages st) →
   ∃ rows, draw_package_list_headed header env st = Ok rows).
Proof.
  split; [|split].
  - by intros e ->.
  - intros -> [Hh Hs]. by apply draw_package_list_raises.
  - intros -> Hnot. by apply draw_package_list_returns.
Qed.

Lemma draw_raises_iff_witness :
  draw_package_list_headed None quiet_env (key_npage 19 marking_sample)
  = Raise "list index out of range".
Proof.
  refine (proj1 (proj2 (draw_raises_iff None quiet_env
                          (key_npage 19 marking_sample))) eq_refl _).
  split; [by vm_compute|].
  change (scroll_offset (key_npage 19 marking_sample)) with (-18).
  change (len_packages (key_npage 19 marking_sample)) with 1. lia.
Defined.

Lemma press_npage env st :
  show_help st = false →
  press env KEY_NPAGE st = key_npage ((getmaxyx env).1 - 5) st.
Proof.
  intros Hhelp. unfold press, exec, handle_input, mbind, M_bind, get_self.
  rewrite Hhelp.
  repeat match goal with
         | |- context [if ?b then _ else _] =>
             let v := eval vm_compute in b in change b with v; cbv beta iota
         end.
  reflexivity.
Qed.

(** X18.  Page Down on a list shorter than half the rows of the screen
    breaks the next repaint: from a scroll offset of at least 0 the key
    leaves an offset below minus the length of the list, and
    [draw_package_list] then raises [IndexError]. *)
Theorem page_down_breaks_repaint env st :
  show_help st = false →
  0 <= scroll_offset st →
  2 * len_packages st < (getmaxyx env).1 - 5 →
  scroll_offset (press env KEY_NPAGE st) = len_packages st - ((getmaxyx env).1 - 5) ∧
  draw_package_list env (press env KEY_NPAGE st) = Raise "list index out of range".
Proof.
  intros Hhelp Hs Hshort. rewrite press_npage by done.
  assert (Hoff : scroll_offset (key_npage ((getmaxyx env).1 - 5) st)
                 = len_packages st - ((getmaxyx env).1 - 5)).
  { unfold key_npage, len_packages in *. cbn. lia. }
  split; [done|].
  apply draw_package_list_raises.
  - unfold len_packages in *. lia.
  - rewrite Hoff. unfold len_packages in *. rewrite key_npage_packages. lia.
Qed.

Lemma page_down_breaks_repaint_witness :
  draw_package_list quiet_env (press quiet_env KEY_NPAGE marking_sample)
  = Raise "list index out of range".
Proof.
  refine (proj2 (page_down_breaks_repaint quiet_env marking_sample _ _ _)).
  - by vm_compute.
  - change (scroll_offset marking_sample) with 0. lia.
  - change (len_packages marking_sample) with 1. cbn. lia.
Defined.

(** ** The text of a row *)

Lemma code_points_app s t :
  code_points (s +:+ t) = (code_points s + code_points t)%nat.
Proof.
  induction s as [|c s IH]; [done|].
  rewrite string_app_cons. cbn. rewrite IH. lia.
Qed.

Lemma code_points_take n s :
  code_points (take_code_points n s) = Nat.min n (code_points s).
Proof.
  revert n. induction s as [|c s IH]; intros n; cbn; [lia|].
  destruct (is_continuation c) eqn:Hc; cbn; rewrite ?Hc.
  - by rewrite IH.
  - destruct n as [|n]; cbn; rewrite ?Hc, ?IH; lia.
Qed.

Lemma take_code_points_prefix n s :
  ∃ rest, s = take_code_points n s +:+ rest.
Proof.
  revert n. induction s as [|c s IH]; intros n; cbn; [by exists ""|].
  destruct (is_continuation c).
  - destruct (IH n) as [rest Hrest]. exists rest.
    rewrite string_app_cons. by rewrite <- Hrest.
  - destruct n as [|n]; [by eexists|].
    destruct (IH n) as [rest Hrest]. exists rest.
    rewrite string_app_cons. by rewrite <- Hrest.
Qed.

Lemma code_points_spaces n : code_points (spaces n) = n.
Proof. induction n as [|n IH]; cbn; [done|]. by rewrite IH. Qed.

Lemma str_len_app s t : str_len (s +:+ t) = str_len s + str_len t.
Proof. unfold str_len. rewrite code_points_app. lia. Qed.

Lemma str_len_slice_to n s :
  str_len (slice_to n s)
  = if n <? 0 then Z.max 0 (str_len s + n) else Z.min n (str_len s).
Proof.
  unfold slice_to, str_len.
  destruct (n <? 0) eqn:Hn; rewrite code_points_take; bool_to_prop; lia.
Qed.

Lemma slice_to_prefix n s : ∃ rest, s = slice_to n s +:+ rest.
Proof. unfold slice_to. destruct (n <? 0); apply take_code_points_prefix. Qed.

Lemma str_len_ljust n s : str_len (ljust n s) = Z.max n (str_len s).
Proof.
  unfold ljust. rewrite str_len_app. unfold str_len at 2.
  rewrite code_points_spaces. lia.
Qed.

Lemma str_len_column n s : 0 <= n → str_len (ljust n (slice_to n s)) = n.
Proof.
  intros Hn. rewrite str_len_ljust, str_len_slice_to.
  replace (n <? 0) with false by (symmetry; apply Z.ltb_ge; lia). lia.
Qed.

Lemma str_len_cons c s :
  is_continuation c = false → str_len (String c s) = 1 + str_len s.
Proof. intros Hc. unfold str_len. cbn [code_points]. rewrite Hc. lia. Qed.

Lemma str_len_status it s :
  str_len (String (get_status_char it) s) = 1 + str_len s.
Proof.
  apply str_len_cons. unfold get_status_char.
  by destruct (action it), (installed it).
Qed.

(** X19.  A display line is the status glyph, a blank, the first 20
    characters of the name padded with blanks to 20, a blank, the first 12
    characters of the version padded with blanks to 12, a blank and the
    first [width - 38] characters of the description (none when the width
    is 38 or less); characters are code points.  So the line has
    [36 + min (len description) (max 0 (width - 38))] characters, whatever
    the lengths of the name and the version, and the text painted for the
    row is cut or padded to exactly [width - 1] characters when
    [width >= 1]. *)
Theorem display_line_layout it width :
  let nm := slice_to 20 (name (package it)) in
  let ver := slice_to 12 (version (package it)) in
  let desc := if 38 <? width
              then slice_to (width - 38) (description (package it)) else "" in
  get_display_line it width
  = String (get_status_char it)
      (" " +:+ (nm +:+ spaces (Z.to_nat (20 - str_len nm))) +:+
       " " +:+ (ver +:+ spaces (Z.to_nat (12 - str_len ver))) +:+
       " " +:+ desc) ∧
  ((∃ rest, name (package it) = nm +:+ rest) ∧
   str_len nm = Z.min 20 (str_len (name (package it)))) ∧
  ((∃ rest, version (package it) = ver +:+ rest) ∧
   str_len ver = Z.min 12 (str_len (version (package it)))) ∧
  ((∃ rest, description (package it) = desc +:+ rest) ∧
   str_len desc
   = Z.min (str_len (description (package it))) (Z.max 0 (width - 38))) ∧
  str_len (get_display_line it width)
  = 36 + Z.min (str_len (description (package it))) (Z.max 0 (width - 38)) ∧
  (1 <= width →
   str_len (ljust (width - 1) (slice_to (width - 1) (get_display_line it width)))
   = width - 1).
Proof.
  cbv zeta.
  assert (Hline : get_display_line it width
    = String (get_status_char it)
        (" " +:+ ljust 20 (slice_to 20 (name (package it))) +:+
         " " +:+ ljust 12 (slice_to 12 (version (package it))) +:+
         " " +:+ (if 38 <? width
                  then slice_to (width - 38) (description (package it))
                  else ""))).
  { unfold get_display_line. cbv zeta. rewrite string_app_cons.
    replace (width - 20 - 12 - 6 >? 0) with (38 <? width)
      by (rewrite Z.gtb_ltb; destruct (38 <? width) eqn:Hw; symmetry;
          bool_to_prop; [apply Z.ltb_lt|apply Z.ltb_ge]; lia).
    replace (width - 20 - 12 - 6) with (width - 38) by lia. done. }
  assert (Hdesc : str_len (if 38 <? width
                           then slice_to (width - 38) (description (package it))
                           else "")
                  = Z.min (str_len (description (package it)))
                          (Z.max 0 (width - 38))).
  { destruct (38 <? width) eqn:Hw; bool_to_prop.
    - rewrite str_len_slice_to.
      replace (width - 38 <? 0) with false by (symmetry; apply Z.ltb_ge; lia).
      lia.
    - unfold str_len at 1. cbn. unfold str_len. lia. }
  split; [exact Hline|].
  split; [split; [apply slice_to_prefix|by rewrite str_len_slice_to]|].
  split; [split; [apply slice_to_prefix|by rewrite str_len_slice_to]|].
  split; [split; [|exact Hdesc]|].
  { destruct (38 <? width); [apply slice_to_prefix|by eexists]. }
  split.
  - rewrite Hline, str_len_status, !str_len_app, !str_len_column by lia.
    rewrite Hdesc. change (str_len " ") with 1. lia.
  - intros Hw. apply str_len_column. lia.
Qed.

Lemma display_line_layout_witness :
  str_len (ljust (80 - 1) (slice_to (80 - 1)
             (get_display_line (new_item sl false) 80))) = 80 - 1.
Proof.
  refine (proj2 (proj2 (proj2 (proj2 (proj2
            (display_line_layout (new_item sl false) 80))))) _). lia.
Defined.

(** ** The highlight *)

(** X20.  The highlight ors colour pair 1 and bold into the attribute of
    the row.  Bold is set on the selected row and on no other; but the
    pair number changes with the colour underneath: a selected entry that
    is installed, or marked for installation, is painted with pair 3 (the
    colour of entries to install), a selected entry marked for removal
    with pair 5 (the colour of the headers), and only an entry that is
    neither installed nor marked gets pair 1. *)
Theorem highlight_mixes_pairs it :
  Z.testbit (row_color true it) 21 = true ∧
  Z.testbit (row_color false it) 21 = false ∧
  pair_number (row_color false it)
  = match action it with
    | INSTALL => 3
    | REMOVE | PURGE => 4
    | NONE => if installed it then 2 else 0
    end ∧
  pair_number (row_color true it)
  = match action it with
    | INSTALL => 3
    | REMOVE | PURGE => 5
    | NONE => if installed it then 3 else 1
    end.
Proof.
  destruct it as [pkg inst act]. unfold row_color, item_color. cbn.
  destruct act, inst; by vm_compute.
Qed.

(** ** Steps that fail before the ledger call *)

(** X21.  A step that fails before the ledger is called leaves the ledger
    alone and makes no further outside call: after a failed download the
    trace has gained the repaint and the download only; after a failed
    extraction the repaint, the download and the extraction; after a
    failed directory removal the repaint and the removal attempt, and
    [db.remove] was not called. *)
Theorem early_failure_keeps_ledger env st i item e :
  packages st !! i = Some item →
  let pkg := package item in
  (download_package env pkg = Some e →
   db (exec (install_package env i) st) = db st ∧
   trace (exec (install_package env i) st)
   = trace st ++ [EvDraw ("Installing " +:+ name pkg +:+ "..."); EvDownload pkg]) ∧
  (download_package env pkg = None → extractall env pkg = Some e →
   db (exec (install_package env i) st) = db st ∧
   trace (exec (install_package env i) st)
   = trace st ++ [EvDraw ("Installing " +:+ name pkg +:+ "..."); EvDownload pkg;
                  EvExtract pkg]) ∧
  (rmtree env pkg = Some e →
   db (exec (remove_package env i) st) = db st ∧
   trace (exec (remove_package env i) st)
   = trace st ++ [EvDraw ("Removing " +:+ name pkg +:+ "..."); EvRmtree pkg]).
Proof.
  intros Hl. cbn zeta. split; [|split].
  - intros Hd. unfold exec, install_package, mbind, M_bind, get_self.
    rewrite Hl. unfold_monad. cbn. rewrite Hd. cbn.
    by rewrite <- !app_assoc.
  - intros Hd He. unfold exec, install_package, mbind, M_bind, get_self.
    rewrite Hl. unfold_monad. cbn. rewrite Hd. cbn. rewrite He. cbn.
    by rewrite <- !app_assoc.
  - intros Hr. unfold exec, remove_package, mbind, M_bind, get_self.
    rewrite Hl. unfold_monad. cbn. rewrite Hr. cbn.
    by rewrite <- !app_assoc.
Qed.

Lemma early_failure_keeps_ledger_witness :
  db (exec (install_package failing_env 0) marked_sample) = db marked_sample.
Proof.
  refine (proj1 (proj1 (early_failure_keeps_ledger failing_env marked_sample 0
                          (mkItem sl false INSTALL) "connection refused" _) _)).
  - by vm_compute.
  - done.
Defined.

(** ** The prompt is read once *)

Lemma key_reads_app tr1 tr2 :
  key_reads (tr1 ++ tr2) = (key_reads tr1 + key_reads tr2)%nat.
Proof. induction tr1 as [|e tr1 IH]; cbn; [done|]. rewrite IH. lia. Qed.

Lemma install_package_key_reads env i st :
  (install_package env i st).1 = Ok tt ∧
  key_reads (trace (install_package env i st).2) = key_reads (trace st).
Proof.
  unfold install_package, mbind, M_bind, get_self.
  destruct (packages st !! i) as [item|]; [|done].
  unfold_monad. cbn -[key_reads].
  destruct (download_package env (package item)); cbn -[key_reads];
    [rewrite !key_reads_app; cbn; split; [done|lia]|].
  destruct (extractall env (package item)); cbn -[key_reads];
    [rewrite !key_reads_app; cbn; split; [done|lia]|].
  destruct (save env _); cbn -[key_reads]; rewrite !key_reads_app; cbn;
    (split; [done|lia]).
Qed.

Lemma remove_package_key_reads env i st :
  (remove_package env i st).1 = Ok tt ∧
  key_reads (trace (remove_package env i st).2) = key_reads (trace st).
Proof.
  unfold remove_package, mbind, M_bind, get_self.
  destruct (packages st !! i) as [item|]; [|done].
  unfold_monad. cbn -[key_reads].
  destruct (rmtree env (package item)); cbn -[key_reads];
    [rewrite !key_reads_app; cbn; split; [done|lia]|].
  destruct (is_installed (db st) (name (package item))); cbn -[key_reads];
    [destruct (save env _); cbn -[key_reads]|];
    rewrite !key_reads_app; cbn; (split; [done|lia]).
Qed.

Lemma for_each_key_reads (body : nat → M unit) refs st :
  (∀ i st, (body i st).1 = Ok tt ∧
           key_reads (trace (body i st).2) = key_reads (trace st)) →
  (for_each refs body st).1 = Ok tt ∧
  key_reads (trace (for_each refs body st).2) = key_reads (trace st).
Proof.
  intros Hbody. revert st. induction refs as [|i refs IH]; intros st; [done|].
  rewrite for_each_cons. destruct (Hbody i st) as [Hok Hk].
  destruct (body i st) as [[[]|e] st1]; cbn in Hok, Hk; [|done].
  destruct (IH st1) as [Hok' Hk']. split; [done|]. by rewrite Hk', Hk.
Qed.

Lemma load_packages_key_reads env st :
  key_reads (trace (load_packages env st).2) = key_reads (trace st).
Proof.
  unfold load_packages, fetch_package_list. unfold_monad.
  cbn [fst snd package_cache set_status_message set_trace trace].
  destruct (package_cache st) as [|kv cache] eqn:Hc; cbn -[key_reads].
  - destruct (index_json env); cbn -[key_reads]; rewrite !key_reads_app;
      cbn; lia.
  - rewrite !key_reads_app; cbn; lia.
Qed.

(** X22.  [apply_changes] reads exactly one key when at least one entry
    is marked [INSTALL] or [REMOVE], whatever the answer and whatever the
    steps do, and no key at all otherwise. *)
Theorem prompt_is_read_once env st :
  key_reads (trace (exec (apply_changes env) st))
  = (key_reads (trace st)
     + (if is_empty (marked INSTALL (packages st))
           && is_empty (marked REMOVE (packages st))
        then 0 else 1))%nat.
Proof.
  unfold exec, apply_changes, mbind, M_bind, get_self.
  destruct (is_empty _ && is_empty _); [cbn -[key_reads]; lia|].
  unfold draw, read_key, emit, modify, mbind, M_bind, get_self, mret, M_ret.
  cbn [fst snd].
  destruct (negb (getch env =? ord "y") && negb (getch env =? ord "Y")).
  { cbn -[key_reads]. rewrite !key_reads_app. cbn. lia. }
  match goal with
  | |- context [for_each (marked INSTALL _) _ ?s] => set (st1 := s)
  end.
  assert (Hk1 : key_reads (trace st1) = (key_reads (trace st) + 1)%nat).
  { subst st1. cbn -[key_reads]. rewrite !key_reads_app. cbn. lia. }
  destruct (for_each_key_reads (install_package env)
              (marked INSTALL (packages st)) st1 (install_package_key_reads env))
    as [Hok2 Hk2].
  destruct (for_each (marked INSTALL (packages st)) (install_package env) st1)
    as [[[]|e1] st2]; cbn [fst snd] in Hok2, Hk2; [|done].
  destruct (for_each_key_reads (remove_package env)
              (marked REMOVE (packages st)) st2 (remove_package_key_reads env))
    as [Hok3 Hk3].
  destruct (for_each (marked REMOVE (packages st)) (remove_package env) st2)
    as [[[]|e2] st3]; cbn [fst snd] in Hok3, Hk3; [|done].
  rewrite load_packages_key_reads. lia.
Qed.

(** ** The file as it stands *)

Lemma install_package_as_shipped env i st :
  as_shipped env →
  let r := install_package env i st in
  db r.2 = db st ∧ packages r.2 = packages st ∧
  ∀ item, packages st !! i = Some item →
    status_message r.2
    = "Error installing " +:+ name (package item) +:+ ": " +:+ no_download_package.
Proof.
  intros Hs. cbn zeta. unfold install_package, mbind, M_bind, get_self.
  destruct (packages st !! i) as [item|] eqn:Hl; [|done].
  unfold_monad. cbn. rewrite Hs. cbn.
  split; [done|]. split; [done|]. by intros ? [= <-].
Qed.

Lemma remove_package_db env i st : db (remove_package env i st).2 ⊆ db st.
Proof.
  unfold remove_package, mbind, M_bind, get_self.
  destruct (packages st !! i) as [item|] eqn:Hl; [|done].
  unfold_monad. cbn. destruct (rmtree env (package item)); cbn; [done|].
  destruct (is_installed (db st) (name (package item))); cbn; [|done].
  destruct (save env _); cbn; apply delete_subseteq.
Qed.

Lemma for_each_db {X} (body : X → M unit) xs st :
  (∀ x s, db (body x s).2 ⊆ db s) →
  db (for_each xs body st).2 ⊆ db st.
Proof.
  intros Hbody. revert st. induction xs as [|x xs IH]; intros st; [done|].
  rewrite for_each_cons. pose proof (Hbody x st) as Hx.
  destruct (body x st) as [[[]|e] st1]; cbn in Hx |- *; [|done].
  by etrans; [apply IH|].
Qed.

Lemma apply_changes_db env st :
  as_shipped env → db (apply_changes env st).2 ⊆ db st.
Proof.
  intros Hs. unfold apply_changes, mbind, M_bind, get_self.
  destruct (is_empty _ && is_empty _); [done|].
  unfold draw, read_key, emit, modify, mbind, M_bind, get_self, mret, M_ret.
  cbn [fst snd].
  destruct (negb (getch env =? ord "y") && negb (getch env =? ord "Y")); [done|].
  match goal with
  | |- context [for_each (marked INSTALL _) _ ?s] => set (st1 := s)
  end.
  pose proof (for_each_db (install_package env) (marked INSTALL (packages st)) st1)
    as H1.
  destruct (for_each (marked INSTALL (packages st)) (install_package env) st1)
    as [[[]|e1] st2]; cbn in H1 |- *.
  2: { apply H1. intros x s. by rewrite (proj1 (install_package_as_shipped env x s Hs)). }
  pose proof (for_each_db (remove_package env) (marked REMOVE (packages st)) st2
                (remove_package_db env)) as H2.
  destruct (for_each (marked REMOVE (packages st)) (remove_package env) st2)
    as [[[]|e2] st3]; cbn in H2 |- *.
  2: { etrans; [exact H2|]. apply H1. intros x s.
       by rewrite (proj1 (install_package_as_shipped env x s Hs)). }
  destruct (load_packages_spec env st3) as (_ & _ & _ & _ & Hdb & _).
  cbn zeta in Hdb. rewrite Hdb. etrans; [exact H2|]. apply H1. intros x s.
  by rewrite (proj1 (install_package_as_shipped env x s Hs)).
Qed.

(** X23.  With the file as it stands, where [Repository] has no
    [download_package], nothing can be installed: every install step ends
    in the error status that quotes the [AttributeError], with the entries
    and the ledger as they were, and whatever key is pressed the ledger in
    memory lists afterwards only packages it listed before. *)
Theorem as_shipped_nothing_installs env st :
  as_shipped env →
  (∀ i item, packages st !! i = Some item →
     let st' := exec (install_package env i) st in
     packages st' = packages st ∧ db st' = db st ∧
     status_message st'
     = "Error installing " +:+ name (package item) +:+ ": " +:+ no_download_package) ∧
  (∀ key, db (press env key st) ⊆ db st).
Proof.
  intros Hs. split.
  - intros i item Hl. cbn zeta. unfold exec.
    destruct (install_package_as_shipped env i st Hs) as (Hdb & Hpk & Hmsg).
    cbn zeta in *. auto.
  - intros key.
    unfold press, exec, handle_input, mbind, M_bind, get_self.
    destruct (show_help st); [done|].
    destruct (key =? ord "q"); [done|].
    repeat match goal with
           | |- context [if ?b then _ else _] =>
               lazymatch b with
               | key =? ord "g" => fail
               | _ => destruct b
               end
           end;
      try (unfold modify, mret, M_ret; cbn;
           unfold key_up, key_down, mark_for_install, mark_for_remove;
           repeat case_match; done).
    all: destruct (key =? ord "g") eqn:Hkey;
      [ pose proof (apply_changes_db env st Hs) as Hdb;
        by destruct (apply_changes env st) as [[[]|e] st1]
      | ].
    + destruct (load_packages_spec env st) as (_ & _ & _ & _ & Hdb & _).
      cbn zeta in Hdb.
      destruct (load_packages env st) as [[[]|e] st1]; cbn in *; by rewrite Hdb.
    + pose proof (search_packages_db env st) as Hdb. unfold exec in Hdb.
      destruct (search_packages env st) as [[[]|e] st1]; cbn in *; by rewrite Hdb.
    + by cbn.
Qed.

Lemma as_shipped_nothing_installs_witness :
  db (press shipped_env (ord "g") two_marked_sample) ⊆ db two_marked_sample.
Proof.
  refine (proj2 (as_shipped_nothing_installs shipped_env two_marked_sample _) _).
  intros pkg. reflexivity.
Defined.
